(** * Datanyx: the yield classifier (ml_api.py) and the service launcher
    (start_all.py), embedded shallowly and checked against their
    specification. *)

From Stdlib Require Import ZArith String List Lia Bool.
From stdpp Require Import base option list gmap strings.
From Equations Require Import Equations.

Local Open Scope string_scope.
Local Open Scope list_scope.
Local Open Scope Z_scope.
Set Warnings "-register-all".

(** ** Python values that travel through the prediction endpoint

    [request.get_json()] yields JSON data: None, booleans, integers,
    floats, strings, lists and dictionaries.  A float is kept as its
    mantissa and binary exponent; no operation of the embedded code looks
    inside one. *)

Inductive pyval : Type :=
| PyNone
| PyBool (b : bool)
| PyInt (n : Z)
| PyFloat (mantissa exponent : Z)
| PyStr (s : string)
| PyList (items : list pyval)
| PyDict (items : list (string * pyval)).

(** [v == s] for a string [s]: an object of another type never equals a
    string, and the comparison raises for none of them. *)
Definition py_eq_str (v : pyval) (s : string) : bool :=
  match v with
  | PyStr t => bool_decide (t = s)
  | _ => false
  end.

Module MlApi.

(** MUSHROOM_VARIETIES, ml_api.py line 41. *)
Definition MUSHROOM_VARIETIES : list string :=
  ["Button"; "Lions Mane"; "Oyster"; "Reishi"; "Shiitake"].

(** FEATURES, ml_api.py lines 26-38. *)
Definition FEATURES : list string :=
  ["humidity_pct"; "CO2_ppm"; "substrate_moisture_pct"; "light_lux";
   "water_quality_index"; "temp_C";
   "mushroom_variety_Button"; "mushroom_variety_Lions Mane";
   "mushroom_variety_Oyster"; "mushroom_variety_Reishi";
   "mushroom_variety_Shiitake"].

(** classify_yield, ml_api.py lines 44-81.  The returned dict has the
    four keys category, color, description and harvest_cycle. *)
Definition yield_dict (category color description : string)
    (harvest_cycle : Z) : gmap string pyval :=
  <["harvest_cycle" := PyInt harvest_cycle]>
    (<["description" := PyStr description]>
      (<["color" := PyStr color]>
        (<["category" := PyStr category]> ∅))).

Definition classify_yield (harvest_cycle : Z) : gmap string pyval :=
  if harvest_cycle =? 6 then
    yield_dict "HIGH" "#4ade80"
      "Excellent conditions! Expected high yield." harvest_cycle
  else if harvest_cycle =? 5 then
    yield_dict "GOOD" "#a3e635"
      "Good conditions. Healthy yield expected." harvest_cycle
  else if harvest_cycle =? 4 then
    yield_dict "MEDIUM" "#fbbf24"
      "Moderate conditions. Some adjustments recommended." harvest_cycle
  else
    yield_dict "LOW" "#f87171"
      "Suboptimal conditions. Significant improvements needed."
      harvest_cycle.

(** [data.get(key, default)] on a dict. *)
Definition dict_get (data : gmap string pyval) (key : string)
    (dflt : pyval) : pyval :=
  default dflt (data !! key).

(** The f-string [f"mushroom_variety_{variety}"]. *)
Definition variety_key (variety : string) : string :=
  "mushroom_variety_" +:+ variety.

(** prepare_features, ml_api.py lines 84-104: the dict literal, then the
    loop over MUSHROOM_VARIETIES that assigns one key per variety. *)
Definition env_features (data : gmap string pyval) : gmap string pyval :=
  <["temp_C" := dict_get data "temperature_c" (PyInt 22)]>
    (<["water_quality_index" := dict_get data "water_quality_index" (PyInt 80)]>
      (<["light_lux" := dict_get data "light_lux" (PyInt 200)]>
        (<["substrate_moisture_pct" := dict_get data "substrate_moisture" (PyInt 65)]>
          (<["CO2_ppm" := dict_get data "co2_ppm" (PyInt 800)]>
            (<["humidity_pct" := dict_get data "humidity_pct" (PyInt 85)]> ∅))))).

Definition one_hot (species : pyval) (features : gmap string pyval)
    (variety : string) : gmap string pyval :=
  <[variety_key variety :=
      PyInt (if py_eq_str species variety then 1 else 0)]> features.

Definition prepare_features (data : gmap string pyval) : gmap string pyval :=
  let species := dict_get data "species" (PyStr "Oyster") in
  foldl (one_hot species) (env_features data) MUSHROOM_VARIETIES.

(** How many of the five variety fields of a feature dict hold 1. *)
Definition is_one (v : option pyval) : bool :=
  match v with
  | Some (PyInt 1) => true
  | _ => false
  end.

Definition hot_count (features : gmap string pyval) : nat :=
  length (filter (λ v, is_one (features !! variety_key v))
                 MUSHROOM_VARIETIES).

End MlApi.

(** ** The service launcher, start_all.py *)

Module StartAll.

(** *** Exceptions

    What a library or operating-system call raises is a subclass of
    Exception; SystemExit and KeyboardInterrupt are BaseExceptions and
    come from [sys.exit] and from the default SIGINT handler only. *)

Inductive error : Type :=
| FileNotFoundError (msg : string)
| TimeoutExpired
| OSError (msg : string)
| OtherError (msg : string).

Inductive exn : Type :=
| SystemExit (code : Z)
| KeyboardInterrupt
| Exception (e : error).

Inductive result (A : Type) : Type :=
| Ret (a : A)
| Raise (e : exn).
Arguments Ret {A} a.
Arguments Raise {A} e.

(** The status the interpreter exits with when a computation ends the
    program: the code of an uncaught SystemExit, 1 for another uncaught
    exception. *)
Definition exit_status {A} (r : result A) : Z :=
  match r with
  | Ret _ => 0
  | Raise (SystemExit code) => code
  | Raise _ => 1
  end.

(** *** Data *)

(** A [pathlib.Path], as its components. *)
Definition path : Type := list string.

(** A [subprocess.Popen] handle, identified with the pid of its child. *)
Definition Popen : Type := Z.

(** One entry of SERVICES. *)
Record service : Type := {
  name : string;
  port : Z;
  cwd : path;
  cmd_windows : list string;
  cmd_unix : list string;
  health_url : string }.

Inductive stdio : Type := Inherit | PIPE | DEVNULL.

(** The keyword arguments of a [subprocess.Popen] call. *)
Record popen_opts : Type := {
  popen_cwd : option path;
  new_console : bool;       (* creationflags=CREATE_NEW_CONSOLE *)
  shell : bool;
  stdout : stdio;
  stderr : stdio }.

(** The lines the script prints, one constructor per [print] call, with
    the values its f-string interpolates. *)
Inductive message : Type :=
| Starting_ollama             (* "📦 Starting Ollama..." *)
| Ollama_started              (* "✅ Ollama started successfully" *)
| Ollama_not_started          (* "⚠️  Ollama may not have started correctly" *)
| Ollama_not_found            (* "❌ Ollama not found. Please install ..." *)
| Ollama_failed (e : error)   (* "❌ Failed to start Ollama: {e}" *)
| Port_in_use (name : string) (port : Z)
    (* "⚠️  {name} - Port {port} already in use (service may be running)" *)
| Directory_not_found (name : string) (cwd : path)
    (* "❌ {name} - Directory not found: {cwd}" *)
| Starting (name : string) (port : Z)
    (* "🚀 Starting {name} on port {port}..." *)
| Failed_to_start (name : string) (e : error)
    (* "❌ Failed to start {name}: {e}" *)
| Shutting_down               (* "🛑 Shutting down services..." *)
| All_stopped                 (* "👋 All services stopped. Goodbye!" *)
| Banner
| Ollama_already_running      (* "✅ Ollama is already running" *)
| Skipping_ollama             (* "⏭️  Skipping Ollama check" *)
| Skipping_frontend           (* "⏭️  Skipping frontend server" *)
| Waiting_for_services        (* "⏳ Waiting for services to be ready..." *)
| Status_header               (* "📊 Service Status:" *)
| Rule                        (* "-" * 50 *)
| Status_running (name : string) (port : Z)
| Status_not_responding (name : string) (port : Z)
| All_running                 (* the three lines printed when all_ok *)
| Some_not_started.           (* the two lines printed otherwise *)

(** What the script does to the outside, in the order it does it. *)
Inductive event : Type :=
| Printed (m : message)
| Socket_open
| Connect (port : Z)
| Socket_close
| Urlopen (url : string) (timeout : Z)
| Stat (p : path)
| Spawn (cmd : list string) (opts : popen_opts)
| Sleep (ms : Z)
| Terminate (proc : Popen)
| Wait (proc : Popen) (timeout : Z)
| Kill (proc : Popen).

(** What [signal.signal] has installed for a signal. *)
Inductive handler : Type := SIG_DFL | Handler_cleanup.

(** The state of the running script: the wall clock ([time.time()], in
    milliseconds), what it has done so far, the sockets it holds open,
    the module-level list running_processes and the installed signal
    handlers. *)
Record world : Type := {
  now : Z;
  trace : list event;
  sockets : nat;
  running_processes : list Popen;
  sigint_handler : handler;
  sigterm_handler : handler }.

(** *** The operating system

    A call into the operating system answers with a value or an error and
    takes some time; what it answers depends on when it is asked. *)

Inductive outcome (A : Type) : Type :=
| Done (a : A)
| Failed (e : error).
Arguments Done {A} a.
Arguments Failed {A} e.

Definition oracle (A : Type) : Type := Z → outcome A * N.

Record env : Type := {
  win32 : bool;                               (* sys.platform == "win32" *)
  PROJECT_ROOT : path;
  connect_ex : Z → oracle Z;                  (* port ↦ errno of connect *)
  urlopen : string → Z → oracle Z;            (* url, timeout ↦ status *)
  path_exists : path → oracle bool;
  spawn : list string → popen_opts → oracle Popen;
  proc_terminate : Popen → oracle unit;
  proc_wait : Popen → Z → oracle Z;           (* timeout ↦ return code *)
  proc_kill : Popen → oracle unit }.

(** *** The monad of the script: state and exceptions *)

Definition M (A : Type) : Type := world → result A * world.

Definition ret {A} (a : A) : M A := λ w, (Ret a, w).

Definition bind {A B} (m : M A) (k : A → M B) : M B := λ w,
  match m w with
  | (Ret a, w') => k a w'
  | (Raise e, w') => (Raise e, w')
  end.

Declare Scope script_scope.
Delimit Scope script_scope with script.
Notation "x ← y ; z" := (bind y (λ x, z))
  (at level 20, y at level 100, z at level 200, only parsing)
  : script_scope.
Notation "x ;; z" := (bind x (λ _, z))
  (at level 100, z at level 200, only parsing, right associativity)
  : script_scope.
Local Open Scope script_scope.

Definition raise {A} (e : exn) : M A := λ w, (Raise e, w).

(** [try: body / except: h], a handler that sees every exception; a
    typed [except] clause is a handler that re-raises what it does not
    match. *)
Definition try_except {A} (body : M A) (h : exn → M A) : M A := λ w,
  match body w with
  | (Ret a, w') => (Ret a, w')
  | (Raise e, w') => h e w'
  end.

Definition log (ev : event) (w : world) : world :=
  {| now := now w; trace := trace w ++ [ev]; sockets := sockets w;
     running_processes := running_processes w;
     sigint_handler := sigint_handler w;
     sigterm_handler := sigterm_handler w |}.

Definition advance (ms : Z) (w : world) : world :=
  {| now := now w + ms; trace := trace w; sockets := sockets w;
     running_processes := running_processes w;
     sigint_handler := sigint_handler w;
     sigterm_handler := sigterm_handler w |}.

Definition set_sockets (n : nat) (w : world) : world :=
  {| now := now w; trace := trace w; sockets := n;
     running_processes := running_processes w;
     sigint_handler := sigint_handler w;
     sigterm_handler := sigterm_handler w |}.

Definition set_running (l : list Popen) (w : world) : world :=
  {| now := now w; trace := trace w; sockets := sockets w;
     running_processes := l;
     sigint_handler := sigint_handler w;
     sigterm_handler := sigterm_handler w |}.

Definition set_handlers (h : handler) (w : world) : world :=
  {| now := now w; trace := trace w; sockets := sockets w;
     running_processes := running_processes w;
     sigint_handler := h; sigterm_handler := h |}.

Definition emit (ev : event) : M unit := λ w, (Ret tt, log ev w).

Definition print (m : message) : M unit := emit (Printed m).

(** A call into the operating system: it is recorded, takes its time and
    returns or raises. *)
Definition ask {A} (o : oracle A) : M A := λ w,
  let w' := advance (Z.of_N (o (now w)).2) w in
  match (o (now w)).1 with
  | Done a => (Ret a, w')
  | Failed e => (Raise (Exception e), w')
  end.

Definition call {A} (ev : event) (o : oracle A) : M A :=
  emit ev;; ask o.

(** Reading running_processes, [running_processes.append(proc)] and the
    two [signal.signal] calls of main. *)
Definition get_running : M (list Popen) := λ w,
  (Ret (running_processes w), w).

Definition append_running (proc : Popen) : M unit := λ w,
  (Ret tt, set_running (running_processes w ++ [proc]) w).

Definition signal_signal (h : handler) : M unit := λ w,
  (Ret tt, set_handlers h w).

(** [time.sleep(s)], [time.time()], [sys.exit(code)]. *)
Definition sleep (ms : Z) : M unit := λ w,
  (Ret tt, advance ms (log (Sleep ms) w)).

Definition time_time : M Z := λ w, (Ret (now w), w).

Definition sys_exit {A} (code : Z) : M A := raise (SystemExit code).

(** [with socket.socket(...) as s: body]: the socket is closed when the
    block is left, by return or by exception.  Creating the socket and
    printing a line are taken to succeed. *)
Definition with_socket {A} (body : M A) : M A := λ w,
  let w1 := set_sockets (S (sockets w)) (log Socket_open w) in
  let (r, w2) := body w1 in
  (r, set_sockets (pred (sockets w2)) (log Socket_close w2)).

(** A value together with the equation that says where it came from, for
    the termination proof of a loop whose body runs a computation. *)
Definition inspect {A} (a : A) : {b : A | a = b} := exist _ a eq_refl.

(** [for i, x in enumerate(l): body]. *)
Fixpoint for_each {A} (body : nat → A → M unit) (i : nat) (l : list A)
    : M unit :=
  match l with
  | [] => ret tt
  | x :: l' => body i x;; for_each body (S i) l'
  end.

Section script.
Variable E : env.

(** is_port_in_use, lines 61-64. *)
Definition is_port_in_use (port : Z) : M bool :=
  with_socket (
    rc ← call (Connect port) (connect_ex E port);
    ret (rc =? 0)).

(** The world is_port_in_use leaves behind: a socket opened, the connect
    call and the time it took, the socket closed again. *)
Definition probed (port : Z) (w : world) : world :=
  set_sockets (sockets w)
    (log Socket_close
      (advance (Z.of_N (connect_ex E port (now w)).2)
        (log (Connect port)
          (set_sockets (S (sockets w)) (log Socket_open w))))).

(** check_ollama, lines 67-75. *)
Definition tags_url : string := "http://localhost:11434/api/tags".

Definition check_ollama : M bool :=
  try_except (
    status ← call (Urlopen tags_url 2) (urlopen E tags_url 2);
    ret (status =? 200))
  (λ _, ret false).

(** Whether Ollama answers its health request with status 200 at a given
    moment, and the world check_ollama leaves behind. *)
Definition ollama_up (τ : Z) : bool :=
  match (urlopen E tags_url 2 τ).1 with
  | Done status => status =? 200
  | Failed _ => false
  end.

Definition checked (w : world) : world :=
  advance (Z.of_N (urlopen E tags_url 2 (now w)).2)
    (log (Urlopen tags_url 2) w).

Definition ollama_opts (console : bool) : popen_opts :=
  {| popen_cwd := None; new_console := console; shell := false;
     stdout := DEVNULL; stderr := DEVNULL |}.

Definition popen (cmd : list string) (opts : popen_opts) : M Popen :=
  call (Spawn cmd opts) (spawn E cmd opts).

(** start_ollama, lines 78-108. *)
Definition start_ollama : M bool :=
  print Starting_ollama;;
  try_except (
    (if win32 E
     then popen ["ollama"; "serve"] (ollama_opts true)
     else popen ["ollama"; "serve"] (ollama_opts false));;
    sleep 3000;;
    ok ← check_ollama;
    if ok then print Ollama_started;; ret true
    else print Ollama_not_started;; ret false)
  (λ e,
    match e with
    | Exception (FileNotFoundError _) =>
        print Ollama_not_found;; ret false
    | Exception err => print (Ollama_failed err);; ret false
    | _ => raise e
    end).

(** The spawn request start_ollama makes, and the moment of its second
    health check when the request was accepted at time [τ]. *)
Definition ollama_spawn : oracle Popen :=
  spawn E ["ollama"; "serve"] (ollama_opts (win32 E)).

Definition rechecked_at (τ : Z) : Z :=
  τ + Z.of_N (ollama_spawn τ).2 + 3000.

Definition service_opts (console : bool) (dir : path) : popen_opts :=
  if console
  then {| popen_cwd := Some dir; new_console := true; shell := true;
          stdout := Inherit; stderr := Inherit |}
  else {| popen_cwd := Some dir; new_console := false; shell := false;
          stdout := PIPE; stderr := PIPE |}.

(** start_service, lines 111-152. *)
Definition start_service (service_key : string) (config : service)
    : M (option Popen) :=
  let name := name config in
  let port := port config in
  let cwd := cwd config in
  in_use ← is_port_in_use port;
  if in_use then
    print (Port_in_use name port);;
    ret None
  else
    there ← call (Stat cwd) (path_exists E cwd);
    if negb there then
      print (Directory_not_found name cwd);;
      ret None
    else
      let cmd := if win32 E then cmd_windows config else cmd_unix config in
      print (Starting name port);;
      try_except (
        process ← (if win32 E
                   then popen cmd (service_opts true cwd)
                   else popen cmd (service_opts false cwd));
        ret (Some process))
      (λ e,
        match e with
        | Exception err => print (Failed_to_start name err);; ret None
        | _ => raise e
        end).

(** The spawn request start_service makes for a descriptor, and the moment
    it makes it when it gets that far: after the probe and the directory
    lookup. *)
Definition launch (config : service) : oracle Popen :=
  spawn E (if win32 E then cmd_windows config else cmd_unix config)
    (service_opts (win32 E) (cwd config)).

Definition looked_up (config : service) (w : world) : Z :=
  now (probed (port config) w).

Definition launched (config : service) (w : world) : Z :=
  looked_up config w
  + Z.of_N (path_exists E (cwd config) (looked_up config w)).2.

(** SERVICES, lines 30-55. *)
Definition ml_api : service :=
  {| name := "🧠 ML Yield Predictor"; port := 3002;
     cwd := PROJECT_ROOT E ++ ["Backend"; "ML model"];
     cmd_windows := ["python"; "ml_api.py"];
     cmd_unix := ["python3"; "ml_api.py"];
     health_url := "http://localhost:3002/api/health" |}.

Definition chatbot_backend : service :=
  {| name := "🍄 Chatbot Backend"; port := 3001;
     cwd := PROJECT_ROOT E ++ ["Backend"; "server"];
     cmd_windows := ["npm"; "run"; "dev"];
     cmd_unix := ["npm"; "run"; "dev"];
     health_url := "http://localhost:3001/api/health" |}.

Definition frontend : service :=
  {| name := "🌐 Frontend (AWS_test)"; port := 5173;
     cwd := PROJECT_ROOT E ++ ["AWS_test"];
     cmd_windows := ["npm"; "run"; "dev"];
     cmd_unix := ["npm"; "run"; "dev"];
     health_url := "http://localhost:5173" |}.

Definition SERVICES : list (string * service) :=
  [("ml_api", ml_api); ("chatbot_backend", chatbot_backend);
   ("frontend", frontend)].

(** wait_for_service, lines 155-162.  [wait_loop] is the while loop:
    it reads the clock, compares the elapsed time with the timeout
    (seconds, against a clock in milliseconds), probes the port and
    sleeps half a second.  Every round that goes on moves the clock
    forward, which is why the loop ends. *)
Equations? wait_loop (port start_time timeout : Z) (w : world)
    : result bool * world
    by wf (Z.to_nat (start_time + 1000 * timeout - now w)) lt :=
  wait_loop port start_time timeout w
    with Z_lt_dec (now w - start_time) (1000 * timeout) => {
    | right _ := (Ret false, w);
    | left Hlt with inspect (is_port_in_use port w) => {
      | exist _ (Ret true, w1) Hprobe := (Ret true, w1);
      | exist _ (Ret false, w1) Hprobe :=
          wait_loop port start_time timeout (sleep 500 w1).2;
      | exist _ (Raise e, w1) Hprobe := (Raise e, w1) } }.
Proof.
  assert (now w ≤ now w1); [|lia].
  revert Hprobe.
  unfold is_port_in_use, with_socket, call, bind, emit, ask, ret. cbn.
  destruct (connect_ex E _ (now w)) as [[rc|err] d]; cbn;
    intros Hp; inversion Hp; subst; cbn; lia.
Qed.

Definition wait_for_service (port : Z) (timeout : Z) : M bool :=
  start_time ← time_time;
  wait_loop port start_time timeout.

(** *** Signals

    A signal that arrives while the script blocks in a call runs the
    installed handler inside that call, and an exception that leaves
    the handler leaves the call.  [interrupts] says when SIGINT
    arrives during one run of cleanup: not at all, or during the wait
    on the tracked process of index [k], and then what arrives during
    the run of the handler that this signal starts. *)
Inductive interrupts : Type :=
| Quiet
| During (k : nat) (inner : interrupts).

(** SIGINT arrives: the installed handler runs; Python's default
    handler raises KeyboardInterrupt. *)
Definition deliver_sigint (cleanup_handler : M unit) : M unit := λ w,
  match sigint_handler w with
  | SIG_DFL => raise KeyboardInterrupt w
  | Handler_cleanup => cleanup_handler w
  end.

(** [proc.terminate()], [proc.wait(timeout=...)], [proc.kill()]. *)
Definition terminate (proc : Popen) : M unit :=
  call (Terminate proc) (proc_terminate E proc).

Definition wait (proc : Popen) (timeout : Z) (signal : option (M unit))
    : M Z :=
  match signal with
  | None => call (Wait proc timeout) (proc_wait E proc timeout)
  | Some handler_run =>
      emit (Wait proc timeout);;
      handler_run;;
      ask (proc_wait E proc timeout)
  end.

Definition kill (proc : Popen) : M unit :=
  call (Kill proc) (proc_kill E proc).

(** cleanup, lines 165-178.  [cleanup_proc] is the body of the for
    loop. *)
Definition cleanup_proc (signal : option (M unit)) (proc : Popen)
    : M unit :=
  try_except (
    terminate proc;;
    wait proc 5 signal;;
    ret tt)
  (λ _,
    try_except (kill proc) (λ _, ret tt)).

Definition cleanup_body (signal : nat → option (M unit)) : M unit :=
  print Shutting_down;;
  procs ← get_running;
  for_each (λ i proc, cleanup_proc (signal i) proc) 0 procs;;
  print All_stopped;;
  sys_exit 0.

Fixpoint cleanup (i : interrupts) : M unit :=
  match i with
  | Quiet => cleanup_body (λ _, None)
  | During k inner =>
      cleanup_body (λ j,
        if (j =? k)%nat then Some (deliver_sigint (cleanup inner))
        else None)
  end.

(** What cleanup asks of one tracked process when no signal gets in the
    way, starting at time [τ]: terminate, wait up to 5 seconds unless
    terminate raised, and kill when either raised (a wait that times out
    raises TimeoutExpired). *)
Definition teardown (proc : Popen) (τ : Z) : list event :=
  match (proc_terminate E proc τ).1 with
  | Failed _ => [Terminate proc; Kill proc]
  | Done _ =>
      match (proc_wait E proc 5 (τ + Z.of_N (proc_terminate E proc τ).2)).1
      with
      | Done _ => [Terminate proc; Wait proc 5]
      | Failed _ => [Terminate proc; Wait proc 5; Kill proc]
      end
  end.

(** main, lines 197-270: everything up to the keep-alive loop of lines
    272-277, which only sleeps until a signal ends the program.  [args] is
    what argparse returns. *)
Record args : Type := { no_frontend : bool; no_ollama : bool }.

Fixpoint status_loop (services_to_check : list (string * Z))
    (all_ok : bool) : M bool :=
  match services_to_check with
  | [] => ret all_ok
  | (name, port) :: rest =>
      up ← is_port_in_use port;
      if up then
        print (Status_running name port);;
        status_loop rest all_ok
      else
        print (Status_not_responding name port);;
        status_loop rest false
  end.

(** Lines 209-216 of main: check or start Ollama. *)
Definition main_ollama (a : args) : M unit :=
  if negb (no_ollama a) then
    running ← check_ollama;
    if running then print Ollama_already_running
    else start_ollama;; ret tt
  else print Skipping_ollama.

(** Lines 218-270 of main: the three services and the status table. *)
Definition main_services (a : args) : M unit :=
  ml_proc ← start_service "ml_api" ml_api;
  match ml_proc with
  | Some proc => append_running proc;; sleep 2000
  | None => ret tt
  end;;
  backend_proc ← start_service "chatbot_backend" chatbot_backend;
  match backend_proc with
  | Some proc => append_running proc;; sleep 2000
  | None => ret tt
  end;;
  (if negb (no_frontend a) then
     frontend_proc ← start_service "frontend" frontend;
     match frontend_proc with
     | Some proc => append_running proc
     | None => ret tt
     end
   else print Skipping_frontend);;
  print Waiting_for_services;;
  sleep 3000;;
  print Status_header;;
  print Rule;;
  all_ok ← status_loop
    ([("ML API", 3002); ("Chatbot Backend", 3001); ("Ollama", 11434)]
     ++ (if negb (no_frontend a) then [("Frontend", 5173)] else []))
    true;
  print Rule;;
  if all_ok then print All_running else print Some_not_started.

Definition main (a : args) : M unit :=
  signal_signal Handler_cleanup;;
  print Banner;;
  main_ollama a;;
  main_services a.

End script.

(** *** Reading a run *)

(** The commands of the processes that a stretch of events spawned. *)
Definition spawns (evs : list event) : list (list string) :=
  omap (λ ev, match ev with Spawn cmd _ => Some cmd | _ => None end) evs.

(** The processes that a stretch of events asked to terminate, in the
    order of the requests. *)
Definition terminated (evs : list event) : list Popen :=
  omap (λ ev, match ev with Terminate proc => Some proc | _ => None end) evs.

(** How many runs of cleanup a stretch of events shows: each run starts by
    printing the shutting-down line. *)
Definition starts_cleanup (ev : event) : bool :=
  match ev with
  | Printed Shutting_down => true
  | _ => false
  end.

Definition cleanup_runs (evs : list event) : nat :=
  length (filter (λ ev, starts_cleanup ev) evs).

(** A computation that leaves the tracked processes and the SIGINT handler
    as they were and only adds to the trace. *)
Definition steady {A} (m : M A) : Prop :=
  ∀ w, running_processes (m w).2 = running_processes w ∧
       sigint_handler (m w).2 = sigint_handler w ∧
       ∃ evs, trace (m w).2 = trace w ++ evs.

(** The three ways start_service ends without a process: each returns None
    and differs from the others in the line it prints last. *)
Definition skipped (config : service) (r : result (option Popen))
    (evs : list event) : Prop :=
  r = Ret None ∧
  last evs = Some (Printed (Port_in_use (name config) (port config))).

Definition directory_missing (config : service) (r : result (option Popen))
    (evs : list event) : Prop :=
  r = Ret None ∧
  last evs = Some (Printed (Directory_not_found (name config) (cwd config))).

Definition spawn_failed (config : service) (err : error)
    (r : result (option Popen)) (evs : list event) : Prop :=
  r = Ret None ∧
  last evs = Some (Printed (Failed_to_start (name config) err)).

(** The events a computation adds to the trace of a world. *)
Definition events_of {A} (m : M A) (w : world) : list event :=
  drop (length (trace w)) (trace (m w).2).

(** *** The keep-alive loop and the rest of main *)

Section keep_alive.
Variable E : env.



End keep_alive.

(** The ports that a stretch of events connected to, and the lines of the
    status table it printed: service, port and whether it was found
    running. *)
Definition connects (evs : list event) : list Z :=
  omap (λ ev, match ev with Connect port => Some port | _ => None end) evs.

Definition status_lines (evs : list event) : list (string * Z * bool) :=
  omap (λ ev,
          match ev with
          | Printed (Status_running name port) => Some (name, port, true)
          | Printed (Status_not_responding name port) =>
              Some (name, port, false)
          | _ => None
          end) evs.

(** [grows P n w w']: from [w] to [w'] the script holds as many sockets as
    before, has the same signal handlers, has added to the trace only
    events that satisfy [P], and has appended at most [n] handles to
    running_processes. *)
Definition grows (P : event → Prop) (n : nat) (w w' : world) : Prop :=
  sockets w' = sockets w ∧
  sigint_handler w' = sigint_handler w ∧
  sigterm_handler w' = sigterm_handler w ∧
  (∃ evs, trace w' = trace w ++ evs ∧ Forall P evs) ∧
  (∃ procs, running_processes w' = running_processes w ++ procs ∧
            (length procs ≤ n)%nat).

(** A computation every run of which relates the world before to the world
    after, whether it returns or raises. *)
Definition within (R : world → world → Prop) {A} (m : M A) : Prop :=
  ∀ w, R w (m w).2.

(** A computation that returns normally from every world, after
    connecting to exactly the ports [ports], in that order. *)
Definition proceeds (ports : list Z) {A} (m : M A) : Prop :=
  ∀ w, ∃ a w' evs,
    m w = (Ret a, w') ∧ trace w' = trace w ++ evs ∧ connects evs = ports.

(** What main may do under its two flags: with --no-ollama no health
    request and no spawn outside a working directory (the Ollama spawn is
    the only one without [cwd]); with --no-frontend no connect to port 5173
    and no lookup of the frontend directory. *)
Definition allowed (E : env) (a : args) (ev : event) : Prop :=
  match ev with
  | Urlopen _ _ => no_ollama a = false
  | Spawn _ opts => popen_cwd opts = None → no_ollama a = false
  | Connect port => port = 5173 → no_frontend a = false
  | Stat dir => dir = cwd (frontend E) → no_frontend a = false
  | _ => True
  end.

(** *** Sample machines, for the examples *)

Module Samples.

(** Connect answers: nothing listens (ECONNREFUSED), something listens, or
    something starts to listen [t0] milliseconds after the epoch. *)
Definition refused : Z → oracle Z := λ _ _, (Done 111, 0%N).
Definition listening : Z → oracle Z := λ _ _, (Done 0, 0%N).
Definition opens_at (t0 : Z) : Z → oracle Z := λ _ τ,
  (Done (if τ <? t0 then 111 else 0), 0%N).

Definition machine (connect : Z → oracle Z) (dir_there : bool)
    (spawned : outcome Popen) (waited : outcome Z) : env :=
  {| win32 := false;
     PROJECT_ROOT := ["srv"; "datanyx"];
     connect_ex := connect;
     urlopen := λ _ _ _, (Failed (OSError "Connection refused"), 0%N);
     path_exists := λ _ _, (Done dir_there, 0%N);
     spawn := λ _ _ _, (spawned, 0%N);
     proc_terminate := λ _ _, (Done tt, 0%N);
     proc_wait := λ _ _ _, (waited, 0%N);
     proc_kill := λ _ _, (Done tt, 0%N) |}.

(** Three machines on which start_service spawns nothing: the port is
    taken; the port is free and the directory is missing; the port is free,
    the directory is there and the command is not found.  A fourth where
    the port is taken and the directory is missing as well. *)
Definition port_taken : env :=
  machine listening true (Done 4242) (Done 0).
Definition no_directory : env :=
  machine refused false (Done 4242) (Done 0).
Definition no_command : env :=
  machine refused true (Failed (FileNotFoundError "npm")) (Done 0).
Definition port_taken_no_directory : env :=
  machine listening false (Done 4242) (Done 0).

(** A machine on which every call succeeds at once and no port is open,
    and the script with two services tracked and cleanup installed for
    both signals, as main leaves it. *)
Definition plain : env := machine refused true (Done 4242) (Done 0).

Definition tracking : world :=
  {| now := 0; trace := []; sockets := 0; running_processes := [101; 102];
     sigint_handler := Handler_cleanup; sigterm_handler := Handler_cleanup |}.

(** The script as it starts: clock at 0, nothing done, nothing tracked,
    default signal handlers. *)
Definition boot : world :=
  {| now := 0; trace := []; sockets := 0; running_processes := [];
     sigint_handler := SIG_DFL; sigterm_handler := SIG_DFL |}.

End Samples.

End StartAll.

(** ** The prediction servers: ml_api.py, fastapi_server.py, pythonml.py *)

Module Servers.
Import MlApi.

(** What can be raised inside an endpoint. *)
Inductive failure : Type :=
| BadRequest (msg : string)
| AttributeError (type attribute : string)
| KeyError (missing : list string)
| ValidationError (field : string)
| ModelError (msg : string).

Inductive attempt (A : Type) : Type :=
| Ok (a : A)
| Error (e : failure).
Arguments Ok {A} a.
Arguments Error {A} e.

Definition and_then {A B} (m : attempt A) (k : A → attempt B) : attempt B :=
  match m with
  | Ok a => k a
  | Error e => Error e
  end.

Declare Scope attempt_scope.
Delimit Scope attempt_scope with attempt.
Notation "x ← y ; z" := (and_then y (λ x, z))
  (at level 20, y at level 100, z at level 200, only parsing)
  : attempt_scope.
Local Open Scope attempt_scope.

(** [bool(v)], the truth value [not v] goes by. *)
Definition truthy (v : pyval) : bool :=
  match v with
  | PyNone => false
  | PyBool b => b
  | PyInt n => negb (n =? 0)
  | PyFloat mantissa _ => negb (mantissa =? 0)
  | PyStr s => negb (bool_decide (s = ""))
  | PyList [] => false
  | PyList (_ :: _) => true
  | PyDict [] => false
  | PyDict (_ :: _) => true
  end.

(** [type(v).__name__]. *)
Definition type_name (v : pyval) : string :=
  match v with
  | PyNone => "NoneType"
  | PyBool _ => "bool"
  | PyInt _ => "int"
  | PyFloat _ _ => "float"
  | PyStr _ => "str"
  | PyList _ => "list"
  | PyDict _ => "dict"
  end.

(** The object [data.get] is looked up on: a dict has the method (its
    items, each key once, become the map), any other value raises
    AttributeError. *)
Definition dict_of (data : pyval) : attempt (gmap string pyval) :=
  match data with
  | PyDict items => Ok (list_to_map items)
  | _ => Error (AttributeError (type_name data) "get")
  end.

(** [d[key]]. *)
Definition item (d : gmap string pyval) (key : string) : attempt pyval :=
  match d !! key with
  | Some v => Ok v
  | None => Error (KeyError [key])
  end.

(** [pd.DataFrame([row])[columns]]: the values of the columns in the order
    asked for; KeyError names the columns the row does not have. *)
Definition select (columns : list string) (row : gmap string pyval)
    : attempt (list pyval) :=
  match filter (λ c, row !! c = None) columns with
  | [] => Ok (omap (λ c, row !! c) columns)
  | missing => Error (KeyError missing)
  end.

(** The row ml_api.py hands to the model for a request dict: the six
    readings, each the request's or its default, then one 0/1 flag per
    variety. *)
Definition flag (d : gmap string pyval) (variety : string) : pyval :=
  PyInt (if py_eq_str (dict_get d "species" (PyStr "Oyster")) variety
         then 1 else 0).

Definition feature_row (d : gmap string pyval) : list pyval :=
  [dict_get d "humidity_pct" (PyInt 85);
   dict_get d "co2_ppm" (PyInt 800);
   dict_get d "substrate_moisture" (PyInt 65);
   dict_get d "light_lux" (PyInt 200);
   dict_get d "water_quality_index" (PyInt 80);
   dict_get d "temperature_c" (PyInt 22);
   flag d "Button"; flag d "Lions Mane"; flag d "Oyster"; flag d "Reishi";
   flag d "Shiitake"].

Section endpoints.

(** [model_predict df] is [model.predict(df)[0]] for a one-row frame, or
    what the model raises; [str e] is the text of an exception. *)
Variable model_predict : list pyval → attempt Z.
Variable str : failure → string.

(** *** ml_api.py, the Flask server *)

Definition error_body (msg : string) : gmap string pyval :=
  {["error" := PyStr msg]}.

(** predict, ml_api.py lines 118-170; [get_json] is what
    [request.get_json()] returns or raises.  The body of the try block,
    then the except clause. *)
Definition predict_try (get_json : attempt pyval)
    : attempt (gmap string pyval * Z) :=
  data ← get_json;
  if negb (truthy data) then
    Ok (error_body "No data provided", 400)
  else
    d ← dict_of data;
    let features := prepare_features d in
    df_input ← select FEATURES features;
    raw_prediction ← model_predict df_input;
    let harvest_cycle := raw_prediction + 3 in
    let yield_info := classify_yield harvest_cycle in
    temp_C ← item features "temp_C";
    humidity_pct ← item features "humidity_pct";
    CO2_ppm ← item features "CO2_ppm";
    substrate_moisture_pct ← item features "substrate_moisture_pct";
    light_lux ← item features "light_lux";
    water_quality_index ← item features "water_quality_index";
    Ok (<["input" :=
            PyDict [("species", dict_get d "species" (PyStr "Oyster"));
                    ("temperature_c", temp_C);
                    ("humidity_pct", humidity_pct);
                    ("co2_ppm", CO2_ppm);
                    ("substrate_moisture", substrate_moisture_pct);
                    ("light_lux", light_lux);
                    ("water_quality_index", water_quality_index)]]>
          yield_info,
        200).

Definition predict (get_json : attempt pyval) : gmap string pyval * Z :=
  match predict_try get_json with
  | Ok response => response
  | Error e => (error_body (str e), 500)
  end.

(** *** pythonml.py *)

(** FEATURES, pythonml.py lines 8-20. *)
Definition PYTHONML_FEATURES : list string :=
  ["humidity_pct"; "CO2_ppm"; "substrate_moisture_pct"; "light_lux";
   "water_quality_index"; "temp_C";
   "mushroom_variety_Button"; "mushroom_variety_Oyster";
   "mushroom_variety_Shiitake"; "mushroom_variety_Lions Mane";
   "mushroom_variety_Reishi"].

(** predict_yield, pythonml.py lines 22-38: nothing is caught. *)
Definition predict_yield (input_data : gmap string pyval) : attempt Z :=
  df_input ← select PYTHONML_FEATURES input_data;
  prediction ← model_predict df_input;
  Ok (prediction + 3).

(** *** fastapi_server.py *)

(** FEATURES and MUSHROOM_VARIETIES, fastapi_server.py lines 39-54. *)
Definition FASTAPI_FEATURES : list string :=
  ["humidity_pct"; "CO2_ppm"; "substrate_moisture_pct"; "light_lux";
   "water_quality_index"; "temp_C";
   "mushroom_variety_Button"; "mushroom_variety_Lions Mane";
   "mushroom_variety_Oyster"; "mushroom_variety_Reishi";
   "mushroom_variety_Shiitake"].

Definition FASTAPI_VARIETIES : list string :=
  ["Button"; "Lions Mane"; "Oyster"; "Reishi"; "Shiitake"].

(** PredictionRequest, lines 58-67, once pydantic has accepted it: the
    species is one of the five of its Literal, the readings are floats. *)
Record PredictionRequest : Type := {
  species : string;
  humidity : pyval;
  co2 : pyval;
  substrate_moisture : pyval;
  light_intensity : pyval;
  water_quality : pyval;
  temperature : pyval }.

Definition SPECIES : list string :=
  ["Oyster"; "Shiitake"; "Lions Mane"; "Button"; "Reishi"].

(** The Literal of PredictionResponse.yield_category, lines 73-75. *)
Definition CATEGORIES : list string := ["HIGH"; "GOOD"; "MEDIUM"; "LOW"].

(** classify_yield, fastapi_server.py lines 81-106. *)
Definition yield_fields (yield_category yield_color description : string)
    : gmap string pyval :=
  <["description" := PyStr description]>
    (<["yield_color" := PyStr yield_color]>
      (<["yield_category" := PyStr yield_category]> ∅)).

Definition fastapi_classify_yield (harvest_cycle : Z) : gmap string pyval :=
  if harvest_cycle =? 6 then
    yield_fields "HIGH" "#4ade80" "Excellent conditions! Expected high yield."
  else if harvest_cycle =? 5 then
    yield_fields "GOOD" "#a3e635" "Good conditions. Healthy yield expected."
  else if harvest_cycle =? 4 then
    yield_fields "MEDIUM" "#fbbf24"
      "Moderate conditions. Some adjustments recommended."
  else
    yield_fields "LOW" "#f87171"
      "Suboptimal conditions. Significant improvements needed.".

(** The feature dict of predict, lines 142-153. *)
Definition request_features (request : PredictionRequest)
    : gmap string pyval :=
  foldl (λ features variety,
           <["mushroom_variety_" +:+ variety :=
               PyInt (if bool_decide (species request = variety)
                      then 1 else 0)]> features)
    (<["temp_C" := temperature request]>
      (<["water_quality_index" := water_quality request]>
        (<["light_lux" := light_intensity request]>
          (<["substrate_moisture_pct" := substrate_moisture request]>
            (<["CO2_ppm" := co2 request]>
              (<["humidity_pct" := humidity request]> ∅))))))
    FASTAPI_VARIETIES.

(** The validation PredictionResponse makes of yield_category. *)
Definition category_literal (v : pyval) : attempt pyval :=
  match v with
  | PyStr c => if bool_decide (c ∈ CATEGORIES) then Ok v
               else Error (ValidationError "yield_category")
  | _ => Error (ValidationError "yield_category")
  end.

(** predict, fastapi_server.py lines 133-185: the response and its status;
    the except clause answers 500 with the text of the exception. *)
Definition fastapi_predict_try (request : PredictionRequest)
    : attempt (gmap string pyval) :=
  let features := request_features request in
  df_input ← select FASTAPI_FEATURES features;
  raw_prediction ← model_predict df_input;
  let harvest_cycle := raw_prediction + 3 in
  let yield_info := fastapi_classify_yield harvest_cycle in
  yield_category ← item yield_info "yield_category";
  yield_color ← item yield_info "yield_color";
  description ← item yield_info "description";
  yield_category ← category_literal yield_category;
  Ok (<["input_received" :=
          PyDict [("species", PyStr (species request));
                  ("humidity", humidity request);
                  ("co2", co2 request);
                  ("substrate_moisture", substrate_moisture request);
                  ("light_intensity", light_intensity request);
                  ("water_quality", water_quality request);
                  ("temperature", temperature request)]]>
       (<["description" := description]>
         (<["yield_color" := yield_color]>
           (<["yield_category" := yield_category]>
             (<["harvest_cycle" := PyInt harvest_cycle]> ∅))))).

Definition fastapi_predict (request : PredictionRequest)
    : gmap string pyval * Z :=
  match fastapi_predict_try request with
  | Ok response => (response, 200)
  | Error e => ({["detail" := PyStr (str e)]}, 500)
  end.

(** The request dict that carries to ml_api.py the readings a
    PredictionRequest carries to fastapi_server.py. *)
Definition as_flask_request (request : PredictionRequest)
    : gmap string pyval :=
  <["temperature_c" := temperature request]>
    (<["water_quality_index" := water_quality request]>
      (<["light_lux" := light_intensity request]>
        (<["substrate_moisture" := substrate_moisture request]>
          (<["co2_ppm" := co2 request]>
            (<["humidity_pct" := humidity request]>
              (<["species" := PyStr (species request)]> ∅)))))).

End endpoints.

(** *** A sample model and request, for the examples *)

Module Samples.

(** A model that looks at the humidity only, and the text of an
    exception. *)
Definition humidity_model (row : list pyval) : attempt Z :=
  match row with
  | PyInt humidity_pct :: _ => Ok (if 85 <=? humidity_pct then 2 else 0)
  | _ => Error (ModelError "could not convert the row")
  end.

Definition message (e : failure) : string :=
  match e with
  | BadRequest msg => msg
  | AttributeError type attribute =>
      "'" +:+ type +:+ "' object has no attribute '" +:+ attribute +:+ "'"
  | KeyError _ => "not in index"
  | ValidationError field => "validation error for " +:+ field
  | ModelError msg => msg
  end.


(** A request for fastapi_server.py and the body that carries the same
    readings to ml_api.py. *)
Definition reishi_request : PredictionRequest :=
  {| species := "Reishi";
     humidity := PyInt 80;
     co2 := PyInt 900;
     substrate_moisture := PyInt 60;
     light_intensity := PyInt 150;
     water_quality := PyInt 75;
     temperature := PyInt 24 |}.

Definition reishi_body : list (string * pyval) :=
  [("temperature_c", PyInt 24);
   ("water_quality_index", PyInt 75);
   ("light_lux", PyInt 150);
   ("substrate_moisture", PyInt 60);
   ("co2_ppm", PyInt 900);
   ("humidity_pct", PyInt 80);
   ("species", PyStr "Reishi")].

End Samples.

End Servers.

(** ** Theorems: ml_api.py *)

Section ml_api_props.
Import MlApi.

Lemma yield_dict_category c col d h :
  yield_dict c col d h !! "category" = Some (PyStr c).
Proof. reflexivity. Qed.

Lemma yield_dict_cycle c col d h :
  yield_dict c col d h !! "harvest_cycle" = Some (PyInt h).
Proof. unfold yield_dict. by rewrite lookup_insert_eq. Qed.

Lemma classify_yield_cases (hc : Z) :
  classify_yield hc !! "category" =
    Some (PyStr (if hc =? 6 then "HIGH" else if hc =? 5 then "GOOD"
                 else if hc =? 4 then "MEDIUM" else "LOW")).
Proof.
  unfold classify_yield.
  destruct (hc =? 6); [apply yield_dict_category|].
  destruct (hc =? 5); [apply yield_dict_category|].
  destruct (hc =? 4); apply yield_dict_category.
Qed.

(** C9: classify_yield is a total function of the integer harvest_cycle;
    6 is HIGH, 5 is GOOD, 4 is MEDIUM and every other integer (7, say, or
    a negative one) is LOW; the category is always one of these four and
    the dict carries the harvest_cycle it was given. *)
Theorem classify_yield_four_way (harvest_cycle : Z) :
  let r := classify_yield harvest_cycle in
  (harvest_cycle = 6 → r !! "category" = Some (PyStr "HIGH")) ∧
  (harvest_cycle = 5 → r !! "category" = Some (PyStr "GOOD")) ∧
  (harvest_cycle = 4 → r !! "category" = Some (PyStr "MEDIUM")) ∧
  (harvest_cycle ≠ 6 → harvest_cycle ≠ 5 → harvest_cycle ≠ 4 →
     r !! "category" = Some (PyStr "LOW")) ∧
  (∃ c, r !! "category" = Some (PyStr c) ∧
        c ∈ ["HIGH"; "GOOD"; "MEDIUM"; "LOW"]) ∧
  r !! "harvest_cycle" = Some (PyInt harvest_cycle) ∧
  classify_yield 7 !! "category" = Some (PyStr "LOW").
Proof.
  cbv zeta. rewrite classify_yield_cases.
  repeat split.
  - by intros ->.
  - by intros ->.
  - by intros ->.
  - intros H6 H5 H4.
    destruct (Z.eqb_spec harvest_cycle 6); [done|].
    destruct (Z.eqb_spec harvest_cycle 5); [done|].
    by destruct (Z.eqb_spec harvest_cycle 4).
  - destruct (harvest_cycle =? 6); [eexists; split; [done|set_solver]|].
    destruct (harvest_cycle =? 5); [eexists; split; [done|set_solver]|].
    destruct (harvest_cycle =? 4); eexists; (split; [done|set_solver]).
  - unfold classify_yield.
    destruct (harvest_cycle =? 6); [apply yield_dict_cycle|].
    destruct (harvest_cycle =? 5); [apply yield_dict_cycle|].
    destruct (harvest_cycle =? 4); apply yield_dict_cycle.
Qed.

(** The value a feature takes: the request's own when the key is there,
    the default otherwise. *)
Lemma dict_get_missing (data : gmap string pyval) k d :
  data !! k = None → dict_get data k d = d.
Proof. unfold dict_get. by intros ->. Qed.

Lemma dict_get_present (data : gmap string pyval) k d v :
  data !! k = Some v → dict_get data k d = v.
Proof. unfold dict_get. by intros ->. Qed.

Lemma prepare_features_variety data v :
  v ∈ MUSHROOM_VARIETIES →
  prepare_features data !! variety_key v =
    Some (PyInt (if py_eq_str (dict_get data "species" (PyStr "Oyster")) v
                 then 1 else 0)).
Proof.
  unfold MUSHROOM_VARIETIES. rewrite !elem_of_cons, elem_of_nil.
  intros [->|[->|[->|[->|[->|[]]]]]]; reflexivity.
Qed.

Lemma hot_count_cases (b1 b2 b3 b4 b5 : bool) data :
  py_eq_str (dict_get data "species" (PyStr "Oyster")) "Button" = b1 →
  py_eq_str (dict_get data "species" (PyStr "Oyster")) "Lions Mane" = b2 →
  py_eq_str (dict_get data "species" (PyStr "Oyster")) "Oyster" = b3 →
  py_eq_str (dict_get data "species" (PyStr "Oyster")) "Reishi" = b4 →
  py_eq_str (dict_get data "species" (PyStr "Oyster")) "Shiitake" = b5 →
  hot_count (prepare_features data) =
    (Nat.b2n b1 + Nat.b2n b2 + Nat.b2n b3 + Nat.b2n b4 + Nat.b2n b5)%nat.
Proof.
  intros E1 E2 E3 E4 E5. unfold hot_count, MUSHROOM_VARIETIES.
  repeat (rewrite filter_cons, prepare_features_variety
            by (unfold MUSHROOM_VARIETIES; set_solver)).
  rewrite filter_nil, E1, E2, E3, E4, E5.
  by destruct b1, b2, b3, b4, b5.
Qed.

(** C10: prepare_features is a total function of the request dict; each
    environmental field is the request's value or, when the key is
    missing, its fixed default (species falls back to Oyster); the result
    has exactly the eleven FEATURES keys; a species among the five known
    varieties sets exactly one variety field to 1, and any other species
    leaves all five at 0. *)
Theorem prepare_features_one_hot (data : gmap string pyval) :
  let species := default (PyStr "Oyster") (data !! "species") in
  let f := prepare_features data in
  f !! "humidity_pct" = Some (default (PyInt 85) (data !! "humidity_pct")) ∧
  f !! "CO2_ppm" = Some (default (PyInt 800) (data !! "co2_ppm")) ∧
  f !! "substrate_moisture_pct" =
    Some (default (PyInt 65) (data !! "substrate_moisture")) ∧
  f !! "light_lux" = Some (default (PyInt 200) (data !! "light_lux")) ∧
  f !! "water_quality_index" =
    Some (default (PyInt 80) (data !! "water_quality_index")) ∧
  f !! "temp_C" = Some (default (PyInt 22) (data !! "temperature_c")) ∧
  dom f = list_to_set FEATURES ∧
  (∀ v, v ∈ MUSHROOM_VARIETIES → species = PyStr v →
     hot_count f = 1%nat ∧ f !! variety_key v = Some (PyInt 1)) ∧
  ((∀ v, v ∈ MUSHROOM_VARIETIES → species ≠ PyStr v) →
     hot_count f = 0%nat ∧
     ∀ v, v ∈ MUSHROOM_VARIETIES → f !! variety_key v = Some (PyInt 0)).
Proof.
  cbv zeta. fold (dict_get data "species" (PyStr "Oyster")).
  repeat split; try reflexivity.
  - unfold MUSHROOM_VARIETIES in H. rewrite !elem_of_cons, elem_of_nil in H.
    destruct H as [->|[->|[->|[->|[->|[]]]]]];
      erewrite hot_count_cases by (rewrite H0; reflexivity); reflexivity.
  - rewrite prepare_features_variety, H0 by done.
    unfold py_eq_str. by rewrite bool_decide_eq_true_2.
  - assert (∀ v, v ∈ MUSHROOM_VARIETIES →
              py_eq_str (dict_get data "species" (PyStr "Oyster")) v = false)
      as Hno.
    { intros v Hv. specialize (H v Hv).
      destruct (dict_get data "species" (PyStr "Oyster")); try done.
      cbn. apply bool_decide_eq_false_2. congruence. }
    erewrite hot_count_cases
      by (apply Hno; unfold MUSHROOM_VARIETIES; set_solver).
    reflexivity.
  - intros v Hv. rewrite prepare_features_variety by done.
    destruct (dict_get data "species" (PyStr "Oyster")) eqn:E; try done.
    cbn. rewrite bool_decide_eq_false_2; [done|].
    intros ->. by apply (H v Hv).
Qed.

End ml_api_props.

(** ** Theorems: start_all.py *)

Section start_all_props.
Import StartAll.
Local Open Scope script_scope.

Variable E : env.

(** Running a computation: the monad's operations unfold to plain state
    passing. *)
Ltac run :=
  unfold start_service, is_port_in_use, with_socket, check_ollama,
    start_ollama, popen, terminate, kill, call, print, emit, ask, sleep,
    time_time, sys_exit, raise, try_except, get_running, append_running,
    signal_signal, bind, ret;
  cbn [fst snd now trace sockets running_processes sigint_handler
       sigterm_handler log advance set_sockets set_running set_handlers
       name port cwd Nat.pred].

Lemma is_port_in_use_run port w :
  is_port_in_use E port w =
    (match (connect_ex E port (now w)).1 with
     | Done rc => Ret (rc =? 0)
     | Failed e => Raise (Exception e)
     end, probed E port w).
Proof.
  unfold probed. run. by destruct (connect_ex E port (now w)).1.
Qed.

Lemma probed_trace port w :
  trace (probed E port w) =
    trace w ++ [Socket_open; Connect port; Socket_close].
Proof. unfold probed. cbn. by rewrite <- !app_assoc. Qed.

(** C5: is_port_in_use returns True exactly when the connect call to the
    port reports success (errno 0), False for every other errno (refused,
    timed out, unreachable), and raises for none of them; all it does is
    open one socket, connect and close the socket again, so it holds no more
    sockets after the call than before and leaves the tracked processes
    and the signal handlers alone. *)
Theorem is_port_in_use_connect (port : Z) (w : world) :
  let r := (is_port_in_use E port w).1 in
  let w' := (is_port_in_use E port w).2 in
  (r = Ret true ↔ (connect_ex E port (now w)).1 = Done 0) ∧
  (∀ rc, (connect_ex E port (now w)).1 = Done rc → rc ≠ 0 → r = Ret false) ∧
  (∀ rc, (connect_ex E port (now w)).1 = Done rc → ∀ e, r ≠ Raise e) ∧
  trace w' = trace w ++ [Socket_open; Connect port; Socket_close] ∧
  sockets w' = sockets w ∧
  running_processes w' = running_processes w ∧
  sigint_handler w' = sigint_handler w ∧
  sigterm_handler w' = sigterm_handler w.
Proof.
  cbv zeta. rewrite is_port_in_use_run. cbn [fst snd].
  rewrite probed_trace.
  destruct (connect_ex E port (now w)).1 as [rc|err] eqn:Hc.
  - repeat split; try done.
    + intros [= Hrc]. f_equal. lia.
    + intros [= ->]. done.
    + intros rc' [= <-] Hne. f_equal. lia.
  - repeat split; try done.
Qed.

(** start_service when the probe finds the port open. *)
Lemma start_service_open key config w :
  (is_port_in_use E (port config) w).1 = Ret true →
  start_service E key config w =
    (Ret None,
     log (Printed (Port_in_use (name config) (port config)))
         (probed E (port config) w)).
Proof.
  intros Hopen. unfold start_service, bind at 1.
  destruct (is_port_in_use E (port config) w) as [r w1] eqn:Hrun.
  rewrite is_port_in_use_run in Hrun. cbn in Hopen. subst r.
  by injection Hrun as _ <-.
Qed.

(** start_service when the probe finds the port closed: the directory is
    looked up next. *)
Lemma start_service_closed key config w :
  (is_port_in_use E (port config) w).1 = Ret false →
  start_service E key config w =
    (there ← call (Stat (cwd config)) (path_exists E (cwd config));
     if negb there then
       print (Directory_not_found (name config) (cwd config));; ret None
     else
       print (Starting (name config) (port config));;
       try_except (
         process ← (if win32 E
                    then popen E (if win32 E then cmd_windows config
                                  else cmd_unix config)
                           (service_opts true (cwd config))
                    else popen E (if win32 E then cmd_windows config
                                  else cmd_unix config)
                           (service_opts false (cwd config)));
         ret (Some process))
       (λ e,
         match e with
         | Exception err =>
             print (Failed_to_start (name config) err);; ret None
         | _ => raise e
         end)) (probed E (port config) w).
Proof.
  intros Hclosed. unfold start_service, bind at 1.
  destruct (is_port_in_use E (port config) w) as [r w1] eqn:Hrun.
  rewrite is_port_in_use_run in Hrun. cbn in Hclosed. subst r.
  by injection Hrun as _ <-.
Qed.

(** C1: when the port of a descriptor is open at the time of the call,
    start_service returns None after printing the port-in-use line (the
    skipped outcome): it probes the port and prints, spawns no process and
    tracks none. *)
Theorem start_service_port_open_skips (key : string) (config : service)
    (w : world) :
  (is_port_in_use E (port config) w).1 = Ret true →
  ∃ w' evs,
    start_service E key config w = (Ret None, w') ∧
    trace w' = trace w ++ evs ∧
    evs = [Socket_open; Connect (port config); Socket_close;
           Printed (Port_in_use (name config) (port config))] ∧
    skipped config (Ret None) evs ∧
    spawns evs = [] ∧
    running_processes w' = running_processes w.
Proof.
  intros Hopen. rewrite (start_service_open _ _ _ Hopen).
  eexists _, _. split; [reflexivity|].
  split; [|repeat split].
  cbn [trace log]. rewrite probed_trace, <- app_assoc. reflexivity.
Qed.

Lemma events_of_app {A} (m : M A) w evs :
  trace (m w).2 = trace w ++ evs → events_of m w = evs.
Proof. unfold events_of. intros ->. by rewrite drop_app_length. Qed.

(** What start_service does after a closed port, by what the directory
    lookup and the spawn request answer. *)
Lemma start_service_no_directory key config w :
  (is_port_in_use E (port config) w).1 = Ret false →
  (path_exists E (cwd config) (looked_up E config w)).1 = Done false →
  ∃ w',
    start_service E key config w = (Ret None, w') ∧
    trace w' = trace w ++
      [Socket_open; Connect (port config); Socket_close; Stat (cwd config);
       Printed (Directory_not_found (name config) (cwd config))] ∧
    running_processes w' = running_processes w.
Proof.
  intros Hclosed Hdir. rewrite (start_service_closed _ _ _ Hclosed).
  unfold looked_up in Hdir. run. rewrite Hdir. cbn.
  eexists. split; [reflexivity|]. split; [|reflexivity].
  cbn [trace log advance]. rewrite probed_trace, <- !app_assoc. reflexivity.
Qed.

Lemma start_service_spawn_error key config w err :
  (is_port_in_use E (port config) w).1 = Ret false →
  (path_exists E (cwd config) (looked_up E config w)).1 = Done true →
  (launch E config (launched E config w)).1 = Failed err →
  ∃ w',
    start_service E key config w = (Ret None, w') ∧
    trace w' = trace w ++
      [Socket_open; Connect (port config); Socket_close; Stat (cwd config);
       Printed (Starting (name config) (port config));
       Spawn (if win32 E then cmd_windows config else cmd_unix config)
             (service_opts (win32 E) (cwd config));
       Printed (Failed_to_start (name config) err)] ∧
    running_processes w' = running_processes w.
Proof.
  intros Hclosed Hdir Hspawn. rewrite (start_service_closed _ _ _ Hclosed).
  unfold launch, launched, looked_up in *. run. rewrite Hdir. cbn.
  destruct (win32 E); cbn in *; rewrite Hspawn; cbn;
    (eexists; split; [reflexivity|]; split; [|reflexivity]);
    cbn [trace log advance]; rewrite probed_trace, <- !app_assoc;
    reflexivity.
Qed.

Lemma start_service_spawned key config w proc :
  (is_port_in_use E (port config) w).1 = Ret false →
  (path_exists E (cwd config) (looked_up E config w)).1 = Done true →
  (launch E config (launched E config w)).1 = Done proc →
  ∃ w',
    start_service E key config w = (Ret (Some proc), w') ∧
    trace w' = trace w ++
      [Socket_open; Connect (port config); Socket_close; Stat (cwd config);
       Printed (Starting (name config) (port config));
       Spawn (if win32 E then cmd_windows config else cmd_unix config)
             (service_opts (win32 E) (cwd config))] ∧
    running_processes w' = running_processes w.
Proof.
  intros Hclosed Hdir Hspawn. rewrite (start_service_closed _ _ _ Hclosed).
  unfold launch, launched, looked_up in *. run. rewrite Hdir. cbn.
  destruct (win32 E); cbn in *; rewrite Hspawn; cbn;
    (eexists; split; [reflexivity|]; split; [|reflexivity]);
    cbn [trace log advance]; rewrite probed_trace, <- !app_assoc;
    reflexivity.
Qed.

Lemma start_service_probe_raises key config w e :
  (is_port_in_use E (port config) w).1 = Raise e →
  start_service E key config w = (Raise e, probed E (port config) w).
Proof.
  intros Hraise. unfold start_service, bind at 1.
  destruct (is_port_in_use E (port config) w) as [r w1] eqn:Hrun.
  rewrite is_port_in_use_run in Hrun. cbn in Hraise. subst r.
  by injection Hrun as _ <-.
Qed.

(** C2, as the code has it: start_service never spawns for a descriptor
    whose working directory does not exist, and it returns None after
    printing the directory-not-found line when, in addition, the probe
    found the port closed.  (With the port open the probe comes first and
    the call ends as skipped.) *)
Theorem start_service_directory_missing (key : string) (config : service)
    (w : world) :
  (∀ τ, (path_exists E (cwd config) τ).1 = Done false) →
  spawns (events_of (start_service E key config) w) = [] ∧
  ((is_port_in_use E (port config) w).1 = Ret false →
   ∃ w' evs,
     start_service E key config w = (Ret None, w') ∧
     trace w' = trace w ++ evs ∧
     evs = [Socket_open; Connect (port config); Socket_close;
            Stat (cwd config);
            Printed (Directory_not_found (name config) (cwd config))] ∧
     directory_missing config (Ret None) evs ∧
     running_processes w' = running_processes w).
Proof.
  intros Hmissing. split.
  - destruct (is_port_in_use E (port config) w).1 as [[]|e] eqn:Hprobe.
    + erewrite events_of_app; [|rewrite (start_service_open _ _ _ Hprobe);
        cbn [snd trace log]; rewrite probed_trace, <- app_assoc; reflexivity].
      reflexivity.
    + destruct (start_service_no_directory key config w Hprobe
                  (Hmissing _)) as (w' & Hrun & Htrace & _).
      erewrite events_of_app; [|rewrite Hrun; exact Htrace]. reflexivity.
    + erewrite events_of_app; [|rewrite (start_service_probe_raises _ _ _ _ Hprobe);
        cbn [snd]; apply probed_trace].
      reflexivity.
  - intros Hprobe.
    destruct (start_service_no_directory key config w Hprobe
                (Hmissing _)) as (w' & Hrun & Htrace & Hsame).
    eexists w', _. repeat split; eauto.
Qed.

(** C6, as the code has it: in each of the three cases in which
    start_service does not get a process (port in use, working directory
    missing, spawn error) it returns the same value None and raises
    nothing; what tells the three apart is the line printed last. *)
Theorem start_service_outcomes (key : string) (config : service)
    (w : world) :
  let r := (start_service E key config w).1 in
  let evs := events_of (start_service E key config) w in
  ((is_port_in_use E (port config) w).1 = Ret true →
     skipped config r evs) ∧
  ((is_port_in_use E (port config) w).1 = Ret false →
   (path_exists E (cwd config) (looked_up E config w)).1 = Done false →
     directory_missing config r evs) ∧
  (∀ err,
   (is_port_in_use E (port config) w).1 = Ret false →
   (path_exists E (cwd config) (looked_up E config w)).1 = Done true →
   (launch E config (launched E config w)).1 = Failed err →
     spawn_failed config err r evs) ∧
  (∀ c1 c2 c3 err r1 r2 r3 evs1 evs2 evs3,
     skipped c1 r1 evs1 → directory_missing c2 r2 evs2 →
     spawn_failed c3 err r3 evs3 →
     r1 = Ret None ∧ r2 = Ret None ∧ r3 = Ret None ∧
     last evs1 ≠ last evs2 ∧ last evs2 ≠ last evs3 ∧ last evs1 ≠ last evs3).
Proof.
  cbv zeta. repeat split.
  - by rewrite (start_service_open _ _ _ H).
  - erewrite events_of_app; [|rewrite (start_service_open _ _ _ H);
      cbn [snd trace log]; rewrite probed_trace, <- app_assoc; reflexivity].
    reflexivity.
  - destruct (start_service_no_directory key config w H H0)
      as (w' & -> & _). reflexivity.
  - destruct (start_service_no_directory key config w H H0)
      as (w' & Hrun & Htrace & _).
    erewrite events_of_app; [|rewrite Hrun; exact Htrace]. reflexivity.
  - destruct (start_service_spawn_error key config w err H H0 H1)
      as (w' & -> & _). reflexivity.
  - destruct (start_service_spawn_error key config w err H H0 H1)
      as (w' & Hrun & Htrace & _).
    erewrite events_of_app; [|rewrite Hrun; exact Htrace]. reflexivity.
  - by destruct H.
  - by destruct H0.
  - by destruct H1.
  - destruct H as [_ ->], H0 as [_ ->]. discriminate.
  - destruct H0 as [_ ->], H1 as [_ ->]. discriminate.
  - destruct H as [_ ->], H1 as [_ ->]. discriminate.
Qed.

Lemma check_ollama_run w :
  check_ollama E w = (Ret (ollama_up E (now w)), checked E w).
Proof.
  unfold ollama_up, checked. run.
  by destruct (urlopen E tags_url 2 (now w)).1.
Qed.

Lemma start_ollama_spawned w proc :
  (ollama_spawn E (now w)).1 = Done proc →
  ∃ w',
    start_ollama E w = (Ret (ollama_up E (rechecked_at E (now w))), w') ∧
    trace w' = trace w ++
      [Printed Starting_ollama;
       Spawn ["ollama"; "serve"] (ollama_opts (win32 E));
       Sleep 3000; Urlopen tags_url 2;
       Printed (if ollama_up E (rechecked_at E (now w))
                then Ollama_started else Ollama_not_started)] ∧
    running_processes w' = running_processes w.
Proof.
  unfold rechecked_at, ollama_up, ollama_spawn. intros Hspawn. run.
  destruct (win32 E); cbn in *; rewrite Hspawn; cbn;
    rewrite check_ollama_run; unfold ollama_up, checked; cbn;
    (match goal with
     | |- context [urlopen E tags_url 2 ?t] =>
         destruct (urlopen E tags_url 2 t).1 as [status|err]
     end; [destruct (status =? 200)|]);
    cbn; (eexists; split; [reflexivity|]; split; [|reflexivity]);
    cbn; rewrite <- !app_assoc; reflexivity.
Qed.

Lemma start_ollama_spawn_error w err :
  (ollama_spawn E (now w)).1 = Failed err →
  ∃ w',
    start_ollama E w = (Ret false, w') ∧
    trace w' = trace w ++
      [Printed Starting_ollama;
       Spawn ["ollama"; "serve"] (ollama_opts (win32 E));
       Printed (match err with
                | FileNotFoundError _ => Ollama_not_found
                | _ => Ollama_failed err
                end)] ∧
    running_processes w' = running_processes w.
Proof.
  unfold ollama_spawn. intros Hspawn. run.
  destruct (win32 E); cbn in *; rewrite Hspawn; destruct err; cbn;
    (eexists; split; [reflexivity|]; split; [|reflexivity]);
    cbn; rewrite <- !app_assoc; reflexivity.
Qed.

Lemma start_ollama_returns w :
  ∃ b w', start_ollama E w = (Ret b, w') ∧
          running_processes w' = running_processes w.
Proof.
  destruct (ollama_spawn E (now w)).1 as [proc|err] eqn:Hspawn.
  - destruct (start_ollama_spawned w proc Hspawn) as (w' & -> & _ & Hsame).
    eauto.
  - destruct (start_ollama_spawn_error w err Hspawn) as (w' & -> & _ & Hsame).
    eauto.
Qed.

Lemma main_ollama_returns a w :
  ∃ w', main_ollama E a w = (Ret tt, w') ∧
        running_processes w' = running_processes w.
Proof.
  unfold main_ollama. destruct (no_ollama a); cbn [negb].
  - eexists. split; reflexivity.
  - unfold bind at 1. rewrite check_ollama_run.
    destruct (ollama_up E (now w)).
    + eexists. split; reflexivity.
    + destruct (start_ollama_returns (checked E w)) as (b & w' & Hrun & Hsame).
      unfold bind. rewrite Hrun. eexists. split; [reflexivity|exact Hsame].
Qed.

(** C7: check_ollama never raises and returns True exactly when the health
    request is answered with status 200.  When Ollama answers, main's
    Ollama step is the probe and one printed line.  Otherwise it runs
    start_ollama, which spawns [ollama serve] with its output discarded and
    does not track the process, sleeps 3 seconds, checks the health
    request once more and returns what that check says; it returns False
    without raising when the spawn fails, with FileNotFoundError or with
    another error, and then neither sleeps nor checks again.  Whatever the
    step did, it returns and main goes on to start the services. *)
Theorem ollama_bootstrap (a : args) (w : world) :
  check_ollama E w = (Ret (ollama_up E (now w)), checked E w) ∧
  trace (checked E w) = trace w ++ [Urlopen tags_url 2] ∧
  (no_ollama a = false → ollama_up E (now w) = true →
   ∃ w', main_ollama E a w = (Ret tt, w') ∧
         trace w' = trace w ++
           [Urlopen tags_url 2; Printed Ollama_already_running] ∧
         running_processes w' = running_processes w) ∧
  (no_ollama a = false → ollama_up E (now w) = false →
   ∃ b w', start_ollama E (checked E w) = (Ret b, w') ∧
           main_ollama E a w = (Ret tt, w')) ∧
  (∀ proc, (ollama_spawn E (now w)).1 = Done proc →
   ∃ w', start_ollama E w
           = (Ret (ollama_up E (rechecked_at E (now w))), w') ∧
         trace w' = trace w ++
           [Printed Starting_ollama;
            Spawn ["ollama"; "serve"] (ollama_opts (win32 E));
            Sleep 3000; Urlopen tags_url 2;
            Printed (if ollama_up E (rechecked_at E (now w))
                     then Ollama_started else Ollama_not_started)] ∧
         running_processes w' = running_processes w) ∧
  (∀ err, (ollama_spawn E (now w)).1 = Failed err →
   ∃ w', start_ollama E w = (Ret false, w') ∧
         trace w' = trace w ++
           [Printed Starting_ollama;
            Spawn ["ollama"; "serve"] (ollama_opts (win32 E));
            Printed (match err with
                     | FileNotFoundError _ => Ollama_not_found
                     | _ => Ollama_failed err
                     end)] ∧
         running_processes w' = running_processes w) ∧
  stdout (ollama_opts (win32 E)) = DEVNULL ∧
  stderr (ollama_opts (win32 E)) = DEVNULL ∧
  (∃ w', main_ollama E a w = (Ret tt, w')) ∧
  (∃ w', main E a w = main_services E a w').
Proof.
  split; [apply check_ollama_run|].
  split; [unfold checked; reflexivity|].
  split.
  { intros Hno Hup. unfold main_ollama. rewrite Hno. cbn [negb].
    unfold bind at 1. rewrite check_ollama_run, Hup.
    eexists. split; [reflexivity|]. split; [|reflexivity].
    unfold checked. cbn. by rewrite <- app_assoc. }
  split.
  { intros Hno Hup.
    destruct (start_ollama_returns (checked E w)) as (b & w' & Hrun & _).
    exists b, w'. split; [exact Hrun|].
    unfold main_ollama. rewrite Hno. cbn [negb].
    unfold bind at 1. rewrite check_ollama_run, Hup.
    unfold bind. by rewrite Hrun. }
  split; [intros proc; apply start_ollama_spawned|].
  split; [intros err; apply start_ollama_spawn_error|].
  split; [reflexivity|]. split; [reflexivity|].
  split.
  { destruct (main_ollama_returns a w) as (w' & Hrun & _). eauto. }
  destruct (main_ollama_returns a
              (log (Printed Banner) (set_handlers Handler_cleanup w)))
    as (w' & Hrun & _).
  exists w'. unfold main, signal_signal, print, emit.
  unfold bind at 1, bind at 1, bind at 1. by rewrite Hrun.
Qed.

(** *** cleanup *)

(** A round of the loop returns normally, whatever is raised inside it. *)
Lemma cleanup_proc_returns signal proc w :
  (cleanup_proc E signal proc w).1 = Ret tt.
Proof.
  unfold cleanup_proc, try_except.
  match goal with
  | |- (match ?body w with _ => _ end).1 = _ =>
      destruct (body w) as [[[]|e] w1]
  end; [reflexivity|].
  by destruct (kill E proc w1) as [[[]|e'] w2].
Qed.

Lemma cleanup_proc_quiet proc w :
  ∃ w',
    cleanup_proc E None proc w = (Ret tt, w') ∧
    trace w' = trace w ++ teardown E proc (now w) ∧
    running_processes w' = running_processes w.
Proof.
  unfold cleanup_proc, wait, teardown. run.
  destruct (proc_terminate E proc (now w)).1; cbn.
  - destruct (proc_wait E proc 5 _).1; cbn.
    + eexists. split; [reflexivity|]. split; [|reflexivity].
      cbn. by rewrite <- !app_assoc.
    + destruct (proc_kill E proc _).1 as [[]|]; cbn;
        (eexists; split; [reflexivity|]; split; [|reflexivity]);
        cbn; by rewrite <- !app_assoc.
  - destruct (proc_kill E proc _).1 as [[]|]; cbn;
      (eexists; split; [reflexivity|]; split; [|reflexivity]);
      cbn; by rewrite <- !app_assoc.
Qed.

Lemma terminated_teardown proc τ : terminated (teardown E proc τ) = [proc].
Proof.
  unfold teardown. destruct (proc_terminate E proc τ).1; [|reflexivity].
  by destruct (proc_wait E proc 5 _).1.
Qed.

Lemma terminated_app evs1 evs2 :
  terminated (evs1 ++ evs2) = terminated evs1 ++ terminated evs2.
Proof. unfold terminated. apply omap_app. Qed.

Lemma cleanup_loop_quiet procs : ∀ i w,
  ∃ w' episodes,
    for_each (λ _ proc, cleanup_proc E None proc) i procs w = (Ret tt, w') ∧
    trace w' = trace w ++ concat episodes ∧
    Forall2 (λ proc episode, ∃ τ, episode = teardown E proc τ)
            procs episodes ∧
    running_processes w' = running_processes w.
Proof.
  induction procs as [|proc procs IH]; intros i w.
  - exists w, []. cbn. rewrite app_nil_r. repeat split. constructor.
  - destruct (cleanup_proc_quiet proc w) as (w1 & Hrun & Htrace & Hsame).
    destruct (IH (S i) w1) as (w2 & episodes & Hrest & Htrace2 & Hall & Hsame2).
    exists w2, (teardown E proc (now w) :: episodes).
    cbn [for_each]. unfold bind. rewrite Hrun, Hrest.
    split; [reflexivity|]. split; [|split].
    + rewrite Htrace2, Htrace. cbn [concat]. by rewrite <- app_assoc.
    + constructor; eauto.
    + congruence.
Qed.

Lemma terminated_episodes procs episodes :
  Forall2 (λ proc episode, ∃ τ, episode = teardown E proc τ) procs episodes →
  terminated (concat episodes) = procs.
Proof.
  induction 1 as [|proc episode procs episodes [τ ->] _ IH]; [done|].
  cbn [concat]. by rewrite terminated_app, terminated_teardown, IH.
Qed.

(** C3: with no further signal, cleanup prints its first line, takes the
    tracked processes in insertion order, each exactly once, and for each
    asks it to terminate, waits up to 5 seconds and kills it when the wait
    timed out or anything else was raised; a round of the loop returns
    normally whatever was raised inside it, so no process stops the loop;
    then cleanup prints its last line and raises SystemExit(0), the exit
    status 0.  With nothing tracked it prints the two lines and exits 0
    all the same. *)
Theorem cleanup_tears_down_in_order (w : world) :
  ∃ w' episodes,
    cleanup E Quiet w = (Raise (SystemExit 0), w') ∧
    exit_status (cleanup E Quiet w).1 = 0 ∧
    trace w' = trace w ++ [Printed Shutting_down] ++ concat episodes
                       ++ [Printed All_stopped] ∧
    Forall2 (λ proc episode, ∃ τ, episode = teardown E proc τ)
            (running_processes w) episodes ∧
    terminated (concat episodes) = running_processes w ∧
    running_processes w' = running_processes w ∧
    (running_processes w = [] → episodes = []) ∧
    (∀ signal proc w0, (cleanup_proc E signal proc w0).1 = Ret tt) ∧
    (∀ proc τ,
       (proc_terminate E proc τ).1 = Done tt →
       (proc_wait E proc 5 (τ + Z.of_N (proc_terminate E proc τ).2)).1
         = Failed TimeoutExpired →
       teardown E proc τ = [Terminate proc; Wait proc 5; Kill proc]) ∧
    (∀ proc τ rc,
       (proc_terminate E proc τ).1 = Done tt →
       (proc_wait E proc 5 (τ + Z.of_N (proc_terminate E proc τ).2)).1
         = Done rc →
       teardown E proc τ = [Terminate proc; Wait proc 5]).
Proof.
  destruct (cleanup_loop_quiet (running_processes w) 0%nat
              (log (Printed Shutting_down) w))
    as (w1 & episodes & Hloop & Htrace & Hall & Hsame).
  assert (cleanup E Quiet w
          = (Raise (SystemExit 0), log (Printed All_stopped) w1)) as Hrun.
  { cbn [cleanup]. unfold cleanup_body.
    unfold bind at 1, print at 1, emit at 1.
    unfold bind at 1, get_running at 1. cbn [running_processes log].
    unfold bind at 1. rewrite Hloop. reflexivity. }
  exists (log (Printed All_stopped) w1), episodes.
  rewrite Hrun. repeat split; try done.
  - cbn [trace log]. rewrite Htrace. cbn [trace log].
    by rewrite <- !app_assoc.
  - by apply terminated_episodes.
  - intros Hnone. rewrite Hnone in Hall. by inversion Hall.
  - apply cleanup_proc_returns.
  - intros proc τ Hterm Hwait. unfold teardown. by rewrite Hterm, Hwait.
  - intros proc τ rc Hterm Hwait. unfold teardown. by rewrite Hterm, Hwait.
Qed.

(** *** cleanup under a second interrupt *)

Lemma steady_ret {A} (a : A) : steady (ret a).
Proof. intros w. repeat split. exists []. cbn. by rewrite app_nil_r. Qed.

Lemma steady_raise {A} e : steady (@raise A e).
Proof. intros w. repeat split. exists []. cbn. by rewrite app_nil_r. Qed.

Lemma steady_emit ev : steady (emit ev).
Proof. intros w. repeat split. by exists [ev]. Qed.

Lemma steady_ask {A} (o : oracle A) : steady (ask o).
Proof.
  intros w. unfold ask. destruct (o (now w)).1; cbn; repeat split;
    exists []; by rewrite app_nil_r.
Qed.

Lemma steady_bind {A B} (m : M A) (k : A → M B) :
  steady m → (∀ a, steady (k a)) → steady (bind m k).
Proof.
  intros Hm Hk w. unfold bind. specialize (Hm w).
  destruct (m w) as [[a|e] w1]; cbn [snd] in *.
  - destruct Hm as (Hp & Hs & evs & Ht).
    destruct (Hk a w1) as (Hp' & Hs' & evs' & Ht').
    repeat split; [congruence..|].
    exists (evs ++ evs'). by rewrite Ht', Ht, app_assoc.
  - exact Hm.
Qed.

Lemma steady_try_except {A} (m : M A) (h : exn → M A) :
  steady m → (∀ e, steady (h e)) → steady (try_except m h).
Proof.
  intros Hm Hh w. unfold try_except. specialize (Hm w).
  destruct (m w) as [[a|e] w1]; cbn [snd] in *.
  - exact Hm.
  - destruct Hm as (Hp & Hs & evs & Ht).
    destruct (Hh e w1) as (Hp' & Hs' & evs' & Ht').
    repeat split; [congruence..|].
    exists (evs ++ evs'). by rewrite Ht', Ht, app_assoc.
Qed.

Lemma steady_call {A} ev (o : oracle A) : steady (call ev o).
Proof.
  unfold call. apply steady_bind; [apply steady_emit|].
  intros _. apply steady_ask.
Qed.

Lemma steady_for_each {A} (body : nat → A → M unit) l :
  (∀ i x, steady (body i x)) → ∀ i, steady (for_each body i l).
Proof.
  intros Hbody. induction l as [|x l IH]; intros i; cbn [for_each].
  - apply steady_ret.
  - apply steady_bind; [apply Hbody|]. intros _. apply IH.
Qed.

Lemma steady_deliver (h : M unit) : steady h → steady (deliver_sigint h).
Proof.
  intros Hh w. unfold deliver_sigint.
  destruct (sigint_handler w) eqn:Hinstalled; rewrite <- Hinstalled.
  - apply (steady_raise KeyboardInterrupt).
  - apply Hh.
Qed.

Lemma steady_cleanup_proc signal proc :
  (∀ h, signal = Some h → steady h) → steady (cleanup_proc E signal proc).
Proof.
  intros Hsig. unfold cleanup_proc, terminate, wait, kill.
  apply steady_try_except.
  - apply steady_bind; [apply steady_call|]. intros _.
    apply steady_bind; [|intros _; apply steady_ret].
    destruct signal as [h|]; [|apply steady_call].
    apply steady_bind; [apply steady_emit|]. intros _.
    apply steady_bind; [by apply Hsig|]. intros _. apply steady_ask.
  - intros _. apply steady_try_except; [apply steady_call|].
    intros _. apply steady_ret.
Qed.

Lemma steady_cleanup_body signal :
  (∀ i h, signal i = Some h → steady h) → steady (cleanup_body E signal).
Proof.
  intros Hsig. unfold cleanup_body, print, sys_exit.
  apply steady_bind; [apply steady_emit|]. intros _.
  apply steady_bind.
  { intros w. repeat split. exists []. cbn. by rewrite app_nil_r. }
  intros procs. apply steady_bind.
  { apply steady_for_each. intros i proc. apply steady_cleanup_proc.
    intros h. apply Hsig. }
  intros _. apply steady_bind; [apply steady_emit|].
  intros _. apply steady_raise.
Qed.

Lemma steady_cleanup i : steady (cleanup E i).
Proof.
  induction i as [|k inner IH]; cbn [cleanup]; apply steady_cleanup_body.
  - intros i h [=].
  - intros j h. destruct (j =? k)%nat; [|intros [=]].
    intros [= <-]. by apply steady_deliver.
Qed.

Lemma for_each_returns {A} (body : nat → A → M unit) l :
  (∀ i x w, (body i x w).1 = Ret tt) →
  ∀ i w, (for_each body i l w).1 = Ret tt.
Proof.
  intros Hbody. induction l as [|x l IH]; intros i w; [reflexivity|].
  cbn [for_each]. unfold bind. specialize (Hbody i x w).
  destruct (body i x w) as [r w1]. cbn in Hbody. subst r. apply IH.
Qed.

Lemma cleanup_body_exits signal w :
  (cleanup_body E signal w).1 = Raise (SystemExit 0).
Proof.
  unfold cleanup_body. unfold bind at 1, print at 1, emit at 1.
  unfold bind at 1, get_running at 1. unfold bind at 1.
  pose proof (for_each_returns
                (λ i proc, cleanup_proc E (signal i) proc)
                (running_processes (log (Printed Shutting_down) w))
                (λ i x w, cleanup_proc_returns (signal i) x w) 0%nat
                (log (Printed Shutting_down) w)) as Hloop.
  destruct (for_each _ _ _ _) as [r w1]. cbn in Hloop. subst r.
  reflexivity.
Qed.

Lemma cleanup_exits i w : (cleanup E i w).1 = Raise (SystemExit 0).
Proof. destruct i; apply cleanup_body_exits. Qed.

Lemma cleanup_runs_app evs1 evs2 :
  cleanup_runs (evs1 ++ evs2) = (cleanup_runs evs1 + cleanup_runs evs2)%nat.
Proof. unfold cleanup_runs. by rewrite filter_app, length_app. Qed.

Lemma steady_runs {A} (m : M A) w :
  steady m →
  (cleanup_runs (trace w) ≤ cleanup_runs (trace (m w).2))%nat.
Proof.
  intros Hm. destruct (Hm w) as (_ & _ & evs & ->).
  rewrite cleanup_runs_app. lia.
Qed.

(** Every run of cleanup shows in the trace. *)
Lemma cleanup_runs_once i w :
  (cleanup_runs (trace w) + 1 ≤ cleanup_runs (trace (cleanup E i w).2))%nat.
Proof.
  assert (∀ signal, (∀ j h, signal j = Some h → steady h) →
            (cleanup_runs (trace w) + 1
             ≤ cleanup_runs (trace (cleanup_body E signal w).2))%nat) as Hbody.
  { intros signal Hsig. unfold cleanup_body.
    unfold bind at 1, print at 1, emit at 1.
    match goal with
    | |- context [trace (?rest (log ?ev w)).2] =>
        assert (steady rest) as Hrest
    end.
    { apply steady_bind.
      { intros w0. repeat split. exists []. cbn. by rewrite app_nil_r. }
      intros procs. apply steady_bind.
      { apply steady_for_each. intros j proc. apply steady_cleanup_proc.
        intros h. apply Hsig. }
      intros _. apply steady_bind; [apply steady_emit|].
      intros _. apply steady_raise. }
    pose proof (steady_runs _ (log (Printed Shutting_down) w) Hrest) as Hle.
    cbn [trace log] in Hle. rewrite cleanup_runs_app in Hle.
    replace (cleanup_runs [Printed Shutting_down]) with 1%nat in Hle
      by (by vm_compute).
    exact Hle. }
  destruct i as [|k inner]; cbn [cleanup]; apply Hbody.
  - intros j h [=].
  - intros j h. destruct (j =? k)%nat; [|intros [=]].
    intros [= <-]. apply steady_deliver, steady_cleanup.
Qed.

(** A signal during the wait on a process: the handler's whole run of
    cleanup happens inside this round of the loop. *)
Lemma cleanup_proc_interrupted inner proc w :
  sigint_handler w = Handler_cleanup →
  (proc_terminate E proc (now w)).1 = Done tt →
  (cleanup_runs (trace w) + 1
   ≤ cleanup_runs
       (trace (cleanup_proc E (Some (deliver_sigint (cleanup E inner)))
                 proc w).2))%nat.
Proof.
  intros Hinstalled Hterm.
  unfold cleanup_proc, wait, terminate, call.
  unfold try_except at 1, bind at 1, bind at 1, emit at 1, ask at 1.
  cbn [log now]. rewrite Hterm.
  unfold bind at 1, bind at 1, emit at 1, bind at 1, deliver_sigint at 1.
  cbn [sigint_handler log advance]. rewrite Hinstalled.
  match goal with
  | |- context [cleanup E inner ?w2] =>
      pose proof (cleanup_exits inner w2) as Hexit;
      pose proof (cleanup_runs_once inner w2) as Hrun;
      destruct (cleanup E inner w2) as [r w3]
  end.
  cbn [fst snd] in Hexit, Hrun. subst r.
  cbn [trace log advance] in Hrun.
  rewrite <- app_assoc, cleanup_runs_app in Hrun.
  replace (cleanup_runs ([Terminate proc] ++ [Wait proc 5])) with 0%nat
    in Hrun by (by vm_compute).
  assert (steady (try_except (kill E proc) (λ _, ret tt))) as Hkill.
  { apply steady_try_except; [apply steady_call|].
    intros _. apply steady_ret. }
  pose proof (steady_runs _ w3 Hkill). lia.
Qed.

Lemma cleanup_loop_interrupted inner k procs : ∀ i w,
  sigint_handler w = Handler_cleanup →
  (i ≤ k < i + length procs)%nat →
  (∀ proc τ, (proc_terminate E proc τ).1 = Done tt) →
  (cleanup_runs (trace w) + 1
   ≤ cleanup_runs
       (trace (for_each
                 (λ j proc,
                    cleanup_proc E
                      (if (j =? k)%nat
                       then Some (deliver_sigint (cleanup E inner))
                       else None) proc)
                 i procs w).2))%nat.
Proof.
  induction procs as [|proc procs IH]; intros i w Hinstalled Hk Hterm;
    [cbn in Hk; lia|].
  cbn [for_each length] in *. unfold bind.
  destruct (Nat.eqb_spec i k) as [->|Hne].
  - pose proof (cleanup_proc_interrupted inner proc w Hinstalled
                  (Hterm _ _)) as Hrun.
    pose proof (cleanup_proc_returns
                  (Some (deliver_sigint (cleanup E inner))) proc w) as Hret.
    destruct (cleanup_proc E _ proc w) as [r w1].
    cbn [fst snd] in *. subst r.
    match goal with
    | |- context [for_each ?body ?j procs w1] =>
        assert (steady (for_each body j procs)) as Hrest
    end.
    { apply steady_for_each. intros j x. apply steady_cleanup_proc.
      intros h. destruct (j =? k)%nat; [|intros [=]].
      intros [= <-]. apply steady_deliver, steady_cleanup. }
    pose proof (steady_runs _ w1 Hrest). lia.
  - pose proof (cleanup_proc_returns None proc w) as Hret.
    pose proof (steady_cleanup_proc None proc) as Hsteady.
    specialize (Hsteady ltac:(intros h [=])).
    pose proof (steady_runs _ w Hsteady) as Hle.
    destruct (Hsteady w) as (_ & Hsame & _).
    destruct (cleanup_proc E None proc w) as [r w1].
    cbn [fst snd] in *. subst r.
    assert (sigint_handler w1 = Handler_cleanup) as Hinstalled1
      by congruence.
    specialize (IH (S i) w1 Hinstalled1 ltac:(lia) Hterm). lia.
Qed.

(** C8, as the code has it: cleanup reads the tracked processes and never
    changes them, nor the installed handler, and always ends in
    SystemExit(0), whatever signals arrive.  Nothing holds a second
    interrupt back: when the handler is installed and SIGINT arrives during
    the wait on a tracked process, cleanup runs a second time from the
    start inside the first run. *)
Theorem cleanup_reentered (i : interrupts) (w : world) :
  (cleanup E i w).1 = Raise (SystemExit 0) ∧
  running_processes (cleanup E i w).2 = running_processes w ∧
  sigint_handler (cleanup E i w).2 = sigint_handler w ∧
  (∀ k inner,
     i = During k inner →
     sigint_handler w = Handler_cleanup →
     (k < length (running_processes w))%nat →
     (∀ proc τ, (proc_terminate E proc τ).1 = Done tt) →
     (2 ≤ cleanup_runs (events_of (cleanup E i) w))%nat).
Proof.
  split; [apply cleanup_exits|].
  destruct (steady_cleanup i w) as (Hprocs & Hhandler & evs & Htrace).
  split; [exact Hprocs|]. split; [exact Hhandler|].
  intros k inner -> Hinstalled Hk Hterm.
  rewrite (events_of_app _ _ _ Htrace).
  enough (cleanup_runs (trace w) + 2
          ≤ cleanup_runs (trace (cleanup E (During k inner) w).2))%nat
    as Hle by (rewrite Htrace, cleanup_runs_app in Hle; lia).
  cbn [cleanup]. unfold cleanup_body.
  unfold bind at 1, print at 1, emit at 1.
  unfold bind at 1, get_running at 1. cbn [running_processes log].
  unfold bind at 1.
  pose proof (cleanup_loop_interrupted inner k (running_processes w) 0%nat
                (log (Printed Shutting_down) w) Hinstalled ltac:(lia) Hterm)
    as Hloop.
  pose proof (for_each_returns
                (λ j proc,
                   cleanup_proc E
                     (if (j =? k)%nat
                      then Some (deliver_sigint (cleanup E inner))
                      else None) proc)
                (running_processes w)
                (λ j x w, cleanup_proc_returns _ x w) 0%nat
                (log (Printed Shutting_down) w)) as Hret.
  destruct (for_each _ _ _ _) as [r w1]. cbn [fst snd] in *. subst r.
  cbn [trace log] in Hloop. rewrite cleanup_runs_app in Hloop.
  replace (cleanup_runs [Printed Shutting_down]) with 1%nat in Hloop
    by (by vm_compute).
  unfold bind, print, emit, sys_exit, raise. cbn [snd trace log].
  rewrite cleanup_runs_app. lia.
Qed.

(** *** wait_for_service *)

(** Induction along the rounds of the polling loop. *)
Lemma wait_loop_rounds (P : world → result bool * world → Prop)
    (port start timeout : Z) :
  (∀ w, ¬ now w - start < 1000 * timeout → P w (Ret false, w)) →
  (∀ w w1, now w - start < 1000 * timeout →
     is_port_in_use E port w = (Ret true, w1) → P w (Ret true, w1)) →
  (∀ w w1, now w - start < 1000 * timeout →
     is_port_in_use E port w = (Ret false, w1) →
     P (sleep 500 w1).2 (wait_loop E port start timeout (sleep 500 w1).2) →
     P w (wait_loop E port start timeout (sleep 500 w1).2)) →
  (∀ w w1 e, now w - start < 1000 * timeout →
     is_port_in_use E port w = (Raise e, w1) → P w (Raise e, w1)) →
  ∀ w, P w (wait_loop E port start timeout w).
Proof.
  intros Hdone Hopen Hclosed Hraise w.
  funelim (wait_loop E port start timeout w); eauto.
  eapply Hclosed; [done..|].
  match goal with IH : ∀ P : world → _, _ |- _ => by apply IH end.
Qed.

Lemma is_port_in_use_inv port w r w1 :
  is_port_in_use E port w = (r, w1) →
  now w1 = now w + Z.of_N (connect_ex E port (now w)).2 ∧
  (r = Ret true → (connect_ex E port (now w)).1 = Done 0) ∧
  (r = Ret false →
   ∃ rc, (connect_ex E port (now w)).1 = Done rc ∧ rc ≠ 0).
Proof.
  rewrite is_port_in_use_run. intros [= <- <-]. split; [reflexivity|].
  destruct (connect_ex E port (now w)).1 as [rc|err]; split; try done.
  - intros [= Hrc]. f_equal. lia.
  - intros [= Hrc]. exists rc. split; [done|lia].
Qed.

Lemma wait_loop_bounded port start timeout D :
  (∀ τ, Z.of_N (connect_ex E port τ).2 ≤ D) →
  ∀ w,
    now w ≤ now (wait_loop E port start timeout w).2 ∧
    now (wait_loop E port start timeout w).2
      < Z.max (now w + 1) (start + 1000 * timeout + 500 + D) ∧
    ((wait_loop E port start timeout w).1 = Ret true →
     ∃ τ, now w ≤ τ ∧ τ - start < 1000 * timeout ∧
          (connect_ex E port τ).1 = Done 0) ∧
    ((wait_loop E port start timeout w).1 = Ret false →
     1000 * timeout ≤ now (wait_loop E port start timeout w).2 - start).
Proof.
  intros HD.
  apply (wait_loop_rounds
           (λ w out,
              now w ≤ now out.2 ∧
              now out.2 < Z.max (now w + 1) (start + 1000 * timeout + 500 + D) ∧
              (out.1 = Ret true →
               ∃ τ, now w ≤ τ ∧ τ - start < 1000 * timeout ∧
                    (connect_ex E port τ).1 = Done 0) ∧
              (out.1 = Ret false → 1000 * timeout ≤ now out.2 - start)));
    cbn [fst snd].
  - intros w Hge. repeat split; try lia. done.
  - intros w w1 Hlt Hprobe.
    destruct (is_port_in_use_inv _ _ _ _ Hprobe) as (Hnow & Hopen & _).
    specialize (HD (now w)). repeat split; try lia; [|done].
    intros _. exists (now w). repeat split; [lia|lia|by apply Hopen].
  - intros w w1 Hlt Hprobe (Hle & Hbound & Htrue & Hfalse).
    destruct (is_port_in_use_inv _ _ _ _ Hprobe) as (Hnow & _).
    specialize (HD (now w)). cbn [sleep snd now advance log] in *.
    repeat split; try lia.
    + intros Hr. destruct (Htrue Hr) as (τ & Hτ & Hτ' & Hc).
      exists τ. repeat split; [lia|lia|done].
    + exact Hfalse.
  - intros w w1 e Hlt Hprobe.
    destruct (is_port_in_use_inv _ _ _ _ Hprobe) as (Hnow & _).
    specialize (HD (now w)). repeat split; try lia; done.
Qed.

(** With probes that take no time and never raise, the polls fall on the
    moments 0, 0.5 s, 1 s, ... after the current one, as long as the
    elapsed time is below the timeout. *)
Lemma wait_loop_exact port start timeout :
  (∀ τ, (connect_ex E port τ).2 = 0%N) →
  (∀ τ, ∃ rc, (connect_ex E port τ).1 = Done rc) →
  ∀ w,
    (wait_loop E port start timeout w).1 = Ret true ↔
    ∃ n : nat, now w + 500 * Z.of_nat n - start < 1000 * timeout ∧
               (connect_ex E port (now w + 500 * Z.of_nat n)).1 = Done 0.
Proof.
  intros Hfree Hdone.
  apply (wait_loop_rounds
           (λ w out,
              out.1 = Ret true ↔
              ∃ n : nat, now w + 500 * Z.of_nat n - start < 1000 * timeout ∧
                         (connect_ex E port (now w + 500 * Z.of_nat n)).1 = Done 0));
    cbn [fst snd].
  - intros w Hge. split; [done|]. intros (n & Hn & _). lia.
  - intros w w1 Hlt Hprobe.
    destruct (is_port_in_use_inv _ _ _ _ Hprobe) as (_ & Hopen & _).
    split; [|done]. intros _. exists 0%nat.
    replace (now w + 500 * Z.of_nat 0) with (now w) by lia.
    split; [lia|by apply Hopen].
  - intros w w1 Hlt Hprobe IH.
    destruct (is_port_in_use_inv _ _ _ _ Hprobe) as (Hnow & _ & Hclosed).
    destruct (Hclosed eq_refl) as (rc & Hrc & Hne).
    rewrite Hfree in Hnow. cbn [sleep snd now advance log] in IH.
    rewrite IH. split.
    + intros (n & Hn & Hc). exists (S n).
      replace (now w + 500 * Z.of_nat (S n)) with (now w1 + 500 + 500 * Z.of_nat n) by lia.
      split; [lia|done].
    + intros ([|n] & Hn & Hc).
      * replace (now w + 500 * Z.of_nat 0) with (now w) in Hc by lia.
        congruence.
      * exists n.
        replace (now w1 + 500 + 500 * Z.of_nat n) with (now w + 500 * Z.of_nat (S n)) by lia.
        split; [lia|done].
  - intros w w1 e Hlt Hprobe. exfalso.
    rewrite is_port_in_use_run in Hprobe.
    destruct (Hdone (now w)) as (rc & Hrc). rewrite Hrc in Hprobe. done.
Qed.

(** C4, as the code has it: wait_for_service always returns, no later
    than the timeout plus one sleep of 0.5 s plus one probe after it was
    called; it returns True only if one of its polls, started while the
    elapsed time was still below the timeout, found the port open, and
    False only once the timeout has elapsed.  When probes take no time and
    do not raise, the polls are made 0, 0.5 s, 1 s, ... after the call, at
    the moments strictly before the timeout, and the result is True exactly
    when the port is open at one of these moments.  (A port that opens
    between the last poll and the timeout, or at the timeout, is missed.) *)
Theorem wait_for_service_polls (port timeout D : Z) (w : world) :
  (∀ τ, Z.of_N (connect_ex E port τ).2 ≤ D) →
  let r := (wait_for_service E port timeout w).1 in
  let w' := (wait_for_service E port timeout w).2 in
  now w ≤ now w' < now w + Z.max 0 (1000 * timeout) + 500 + D ∧
  (r = Ret true →
   ∃ τ, now w ≤ τ < now w + 1000 * timeout ∧
        (connect_ex E port τ).1 = Done 0) ∧
  (r = Ret false → now w + 1000 * timeout ≤ now w') ∧
  ((∀ τ, (connect_ex E port τ).2 = 0%N) →
   (∀ τ, ∃ rc, (connect_ex E port τ).1 = Done rc) →
   (r = Ret true ↔
    ∃ n : nat, 500 * Z.of_nat n < 1000 * timeout ∧
               (connect_ex E port (now w + 500 * Z.of_nat n)).1 = Done 0)).
Proof.
  intros HD. cbv zeta. unfold wait_for_service, bind, time_time.
  destruct (wait_loop_bounded port (now w) timeout D HD w)
    as (Hle & Hbound & Htrue & Hfalse).
  pose proof (HD 0) as H0. split; [lia|]. split; [|split].
  - intros Hr. destruct (Htrue Hr) as (τ & Hτ & Hτ' & Hc).
    exists τ. split; [lia|done].
  - intros Hr. specialize (Hfalse Hr). lia.
  - intros Hfree Hdone.
    rewrite (wait_loop_exact port (now w) timeout Hfree Hdone w).
    split; intros (n & Hn & Hc); exists n; (split; [lia|done]).
Qed.

End start_all_props.

(** ** Examples on the sample machines *)

Section start_all_examples.
Import StartAll StartAll.Samples.

(** C1 at work: the ML API descriptor on a machine where port 3002 is
    taken. *)
Lemma start_service_port_open_skips_sample :
  ∃ w' evs,
    start_service port_taken "ml_api" (ml_api port_taken) boot
      = (Ret None, w') ∧
    trace w' = trace boot ++ evs ∧
    evs = [Socket_open; Connect 3002; Socket_close;
           Printed (Port_in_use "🧠 ML Yield Predictor" 3002)] ∧
    skipped (ml_api port_taken) (Ret None) evs ∧
    spawns evs = [] ∧
    running_processes w' = running_processes boot.
Proof.
  apply (start_service_port_open_skips port_taken "ml_api"
           (ml_api port_taken) boot).
  reflexivity.
Defined.

(** C2 as stated fails: on a machine where the working directory is
    missing and port 3002 is taken, start_service ends as skipped, with the
    port-in-use line and not the directory-not-found line. *)
Lemma start_service_taken_port_hides_missing_directory :
  (∀ τ, (path_exists port_taken_no_directory
           (cwd (ml_api port_taken_no_directory)) τ).1 = Done false) ∧
  skipped (ml_api port_taken_no_directory)
    (start_service port_taken_no_directory "ml_api"
       (ml_api port_taken_no_directory) boot).1
    (events_of (start_service port_taken_no_directory "ml_api"
                  (ml_api port_taken_no_directory)) boot) ∧
  ¬ directory_missing (ml_api port_taken_no_directory)
      (start_service port_taken_no_directory "ml_api"
         (ml_api port_taken_no_directory) boot).1
      (events_of (start_service port_taken_no_directory "ml_api"
                    (ml_api port_taken_no_directory)) boot).
Proof.
  split; [reflexivity|]. split; [split; reflexivity|].
  intros [_ Hlast]. vm_compute in Hlast. discriminate.
Qed.

(** The amended C2 at work: the directory is missing and the port is
    free. *)
Lemma start_service_directory_missing_sample :
  spawns (events_of (start_service no_directory "ml_api"
                       (ml_api no_directory)) boot) = [] ∧
  ((is_port_in_use no_directory (port (ml_api no_directory)) boot).1
     = Ret false →
   ∃ w' evs,
     start_service no_directory "ml_api" (ml_api no_directory) boot
       = (Ret None, w') ∧
     trace w' = trace boot ++ evs ∧
     evs = [Socket_open; Connect (port (ml_api no_directory)); Socket_close;
            Stat (cwd (ml_api no_directory));
            Printed (Directory_not_found (name (ml_api no_directory))
                       (cwd (ml_api no_directory)))] ∧
     directory_missing (ml_api no_directory) (Ret None) evs ∧
     running_processes w' = running_processes boot).
Proof.
  apply (start_service_directory_missing no_directory "ml_api"
           (ml_api no_directory) boot).
  reflexivity.
Defined.

(** C6 as stated fails: the value start_service returns is the same, None,
    on a machine where the port is taken, on one where the directory is
    missing and on one where the command is not found. *)
Lemma start_service_returns_none_thrice :
  (start_service port_taken "ml_api" (ml_api port_taken) boot).1
    = Ret None ∧
  (start_service no_directory "ml_api" (ml_api no_directory) boot).1
    = (start_service port_taken "ml_api" (ml_api port_taken) boot).1 ∧
  (start_service no_command "ml_api" (ml_api no_command) boot).1
    = (start_service no_directory "ml_api" (ml_api no_directory) boot).1 ∧
  skipped (ml_api port_taken)
    (start_service port_taken "ml_api" (ml_api port_taken) boot).1
    (events_of (start_service port_taken "ml_api" (ml_api port_taken)) boot) ∧
  directory_missing (ml_api no_directory)
    (start_service no_directory "ml_api" (ml_api no_directory) boot).1
    (events_of (start_service no_directory "ml_api" (ml_api no_directory))
       boot) ∧
  spawn_failed (ml_api no_command) (FileNotFoundError "npm")
    (start_service no_command "ml_api" (ml_api no_command) boot).1
    (events_of (start_service no_command "ml_api" (ml_api no_command)) boot).
Proof. repeat split; reflexivity. Qed.

(** The amended C6 at work: the command is not found. *)
Lemma start_service_outcomes_sample :
  spawn_failed (ml_api no_command) (FileNotFoundError "npm")
    (start_service no_command "ml_api" (ml_api no_command) boot).1
    (events_of (start_service no_command "ml_api" (ml_api no_command)) boot).
Proof.
  destruct (start_service_outcomes no_command "ml_api" (ml_api no_command)
              boot) as (_ & _ & Hspawn & _).
  apply Hspawn; reflexivity.
Defined.

(** C4 as stated fails: with a timeout of 1 second and a port that opens
    0.7 s after the call, the polls at 0 and 0.5 s find it closed and the
    loop ends at 1 s, so wait_for_service returns False although the port
    was open before the timeout elapsed. *)
Lemma wait_for_service_misses_late_opening :
  ¬ ((wait_for_service (machine (opens_at 700) true (Done 4242) (Done 0))
        9001 1 boot).1 = Ret true ↔
     ∃ τ, now boot ≤ τ ≤ now boot + 1000 * 1 ∧
          (connect_ex (machine (opens_at 700) true (Done 4242) (Done 0))
             9001 τ).1 = Done 0).
Proof.
  intros [_ Hopen].
  assert ((wait_for_service (machine (opens_at 700) true (Done 4242) (Done 0))
             9001 1 boot).1 = Ret true) as Hr.
  { apply Hopen. exists 700. split; [cbn; lia|reflexivity]. }
  vm_compute in Hr. discriminate.
Qed.

(** The amended C4 at work on the same machine. *)
Lemma wait_for_service_polls_sample :
  let M := machine (opens_at 700) true (Done 4242) (Done 0) in
  let r := (wait_for_service M 9001 1 boot).1 in
  let w' := (wait_for_service M 9001 1 boot).2 in
  now boot ≤ now w' < now boot + Z.max 0 (1000 * 1) + 500 + 0 ∧
  (r = Ret true →
   ∃ τ, now boot ≤ τ < now boot + 1000 * 1 ∧
        (connect_ex M 9001 τ).1 = Done 0) ∧
  (r = Ret false → now boot + 1000 * 1 ≤ now w') ∧
  ((∀ τ, (connect_ex M 9001 τ).2 = 0%N) →
   (∀ τ, ∃ rc, (connect_ex M 9001 τ).1 = Done rc) →
   (r = Ret true ↔
    ∃ n : nat, 500 * Z.of_nat n < 1000 * 1 ∧
               (connect_ex M 9001 (now boot + 500 * Z.of_nat n)).1 = Done 0)).
Proof.
  apply (wait_for_service_polls
           (machine (opens_at 700) true (Done 4242) (Done 0)) 9001 1 0 boot).
  intros τ. cbn. lia.
Defined.

(** C8 as stated fails: with two processes tracked and cleanup installed,
    a SIGINT during the wait on the first one runs cleanup a second time,
    from the start and over both processes, in the middle of the first
    run. *)
Lemma cleanup_runs_again_on_second_interrupt :
  sigint_handler tracking = Handler_cleanup ∧
  trace (cleanup plain (During 0 Quiet) tracking).2 =
    [Printed Shutting_down; Terminate 101; Wait 101 5;
     Printed Shutting_down; Terminate 101; Wait 101 5;
     Terminate 102; Wait 102 5; Printed All_stopped;
     Kill 101; Terminate 102; Wait 102 5; Printed All_stopped] ∧
  ¬ (cleanup_runs (trace (cleanup plain (During 0 Quiet) tracking).2)
     ≤ 1)%nat.
Proof.
  split; [reflexivity|]. split; [reflexivity|].
  vm_compute. lia.
Qed.

(** The amended C8 at work on the same run. *)
Lemma cleanup_reentered_sample :
  (2 ≤ cleanup_runs (events_of (cleanup plain (During 0 Quiet)) tracking))%nat.
Proof.
  destruct (cleanup_reentered plain (During 0 Quiet) tracking)
    as (_ & _ & _ & Hagain).
  apply (Hagain 0%nat Quiet); [reflexivity|reflexivity|cbn; lia|].
  intros proc τ. reflexivity.
Defined.

End start_all_examples.

(** ** More of start_all.py: main, the status table, the keep-alive loop *)

Section start_all_more.
Import StartAll.
Local Open Scope script_scope.

Variable E : env.

Lemma grows_refl P w : grows P 0 w w.
Proof.
  repeat split; [exists []|exists []]; rewrite app_nil_r; by split.
Qed.

Lemma grows_trans P n m w1 w2 w3 :
  grows P n w1 w2 → grows P m w2 w3 → grows P (n + m) w1 w3.
Proof.
  intros (Hs & Hi & Ht & (evs & Hevs & HP) & procs & Hprocs & Hn)
         (Hs' & Hi' & Ht' & (evs' & Hevs' & HP') & procs' & Hprocs' & Hm).
  repeat split; [congruence..| |].
  - exists (evs ++ evs'). rewrite Hevs', Hevs, app_assoc.
    split; [done|by apply Forall_app].
  - exists (procs ++ procs'). rewrite Hprocs', Hprocs, app_assoc.
    split; [done|]. rewrite length_app. lia.
Qed.

Lemma grows_weaken P n m w w' : (n ≤ m)%nat → grows P n w w' → grows P m w w'.
Proof.
  intros Hle (Hs & Hi & Ht & Hevs & procs & Hprocs & Hn).
  repeat split; try done. exists procs. split; [done|lia].
Qed.

Lemma within_ret P {A} (a : A) : within (grows P 0) (ret a).
Proof. intros w. apply grows_refl. Qed.

Lemma within_raise P {A} e : within (grows P 0) (@raise A e).
Proof. intros w. apply grows_refl. Qed.

Lemma within_emit P ev : P ev → within (grows P 0) (emit ev).
Proof.
  intros HP w. repeat split; [exists [ev]|exists []]; cbn.
  - split; [done|by constructor].
  - by rewrite app_nil_r.
Qed.

Lemma within_ask P {A} (o : oracle A) : within (grows P 0) (ask o).
Proof.
  intros w. unfold ask. destruct (o (now w)).1; cbn; repeat split;
    (exists []; rewrite app_nil_r; by split).
Qed.

Lemma within_sleep P ms : P (Sleep ms) → within (grows P 0) (sleep ms).
Proof.
  intros HP w. repeat split; [exists [Sleep ms]|exists []]; cbn.
  - split; [done|by constructor].
  - by rewrite app_nil_r.
Qed.

Lemma within_bind P n m {A B} (c : M A) (k : A → M B) :
  within (grows P n) c → (∀ a, within (grows P m) (k a)) →
  within (grows P (n + m)) (bind c k).
Proof.
  intros Hc Hk w. unfold bind. specialize (Hc w).
  destruct (c w) as [[a|e] w1]; cbn [snd] in *.
  - eapply grows_trans; [exact Hc|apply Hk].
  - eapply grows_weaken; [|exact Hc]. lia.
Qed.

Lemma within_try_except P n m {A} (c : M A) (h : exn → M A) :
  within (grows P n) c → (∀ e, within (grows P m) (h e)) →
  within (grows P (n + m)) (try_except c h).
Proof.
  intros Hc Hh w. unfold try_except. specialize (Hc w).
  destruct (c w) as [[a|e] w1]; cbn [snd] in *.
  - eapply grows_weaken; [|exact Hc]. lia.
  - eapply grows_trans; [exact Hc|apply Hh].
Qed.

Lemma within_call P {A} ev (o : oracle A) :
  P ev → within (grows P 0) (call ev o).
Proof.
  intros HP. unfold call. apply (within_bind P 0 0).
  - by apply within_emit.
  - intros _. apply within_ask.
Qed.

Lemma within_with_socket P n {A} (body : M A) :
  P Socket_open → P Socket_close →
  within (grows P n) body → within (grows P n) (with_socket body).
Proof.
  intros Hopen Hclose Hbody w. unfold with_socket.
  specialize (Hbody (set_sockets (S (sockets w)) (log Socket_open w))).
  destruct (body _) as [r w2]. cbn [snd] in *.
  destruct Hbody as (Hs & Hi & Ht & (evs & Hevs & HP) & procs & Hprocs & Hn).
  cbn in *. unfold grows. cbn. rewrite Hs.
  repeat split; [done|done| |].
  - exists ([Socket_open] ++ evs ++ [Socket_close]).
    rewrite Hevs, <- !app_assoc. split; [done|].
    repeat (apply Forall_app; split); try done; by constructor.
  - by exists procs.
Qed.

Lemma within_is_port_in_use P port :
  P Socket_open → P Socket_close → P (Connect port) →
  within (grows P 0) (is_port_in_use E port).
Proof.
  intros Hopen Hclose Hconnect. unfold is_port_in_use.
  apply within_with_socket; [done..|].
  apply (within_bind P 0 0); [by apply within_call|].
  intros rc. apply within_ret.
Qed.

Lemma within_check_ollama P :
  P (Urlopen tags_url 2) → within (grows P 0) (check_ollama E).
Proof.
  intros Hurl. unfold check_ollama. apply (within_try_except P 0 0).
  - apply (within_bind P 0 0); [by apply within_call|].
    intros status. apply within_ret.
  - intros _. apply within_ret.
Qed.

Lemma within_print P m : P (Printed m) → within (grows P 0) (print m).
Proof. apply within_emit. Qed.

Lemma within_start_ollama P :
  (∀ m, P (Printed m)) → P (Sleep 3000) → P (Urlopen tags_url 2) →
  (∀ cmd opts, popen_cwd opts = None → P (Spawn cmd opts)) →
  within (grows P 0) (start_ollama E).
Proof.
  intros Hprint Hsleep Hurl Hspawn. unfold start_ollama.
  apply (within_bind P 0 0); [by apply within_print|]. intros _.
  apply (within_try_except P 0 0).
  - apply (within_bind P 0 0).
    { unfold popen. destruct (win32 E); by apply within_call, Hspawn. }
    intros _. apply (within_bind P 0 0); [by apply within_sleep|].
    intros _. apply (within_bind P 0 0); [by apply within_check_ollama|].
    intros [|]; (apply (within_bind P 0 0); [by apply within_print|]);
      intros _; apply within_ret.
  - intros [code| |[msg| |msg|msg]]; try apply within_raise;
      (apply (within_bind P 0 0); [by apply within_print|]);
      intros _; apply within_ret.
Qed.

Lemma within_start_service P key config :
  (∀ m, P (Printed m)) → P Socket_open → P Socket_close →
  P (Connect (port config)) → P (Stat (cwd config)) →
  (∀ cmd opts, popen_cwd opts = Some (cwd config) → P (Spawn cmd opts)) →
  within (grows P 0) (start_service E key config).
Proof.
  intros Hprint Hopen Hclose Hconnect Hstat Hspawn. unfold start_service.
  apply (within_bind P 0 0); [by apply within_is_port_in_use|].
  intros [|].
  { apply (within_bind P 0 0); [by apply within_print|].
    intros _. apply within_ret. }
  apply (within_bind P 0 0); [by apply within_call|].
  intros [|]; cbn [negb].
  - apply (within_bind P 0 0); [by apply within_print|]. intros _.
    apply (within_try_except P 0 0).
    + apply (within_bind P 0 0); [|intros proc; apply within_ret].
      unfold popen, service_opts.
      destruct (win32 E); by apply within_call, Hspawn.
    + intros [code| |err]; try apply within_raise.
      apply (within_bind P 0 0); [by apply within_print|].
      intros _. apply within_ret.
  - apply (within_bind P 0 0); [by apply within_print|].
    intros _. apply within_ret.
Qed.

Lemma within_status_loop P services all_ok :
  (∀ m, P (Printed m)) → P Socket_open → P Socket_close →
  Forall (λ service, P (Connect service.2)) services →
  within (grows P 0) (status_loop E services all_ok).
Proof.
  intros Hprint Hopen Hclose Hall. revert all_ok.
  induction Hall as [|[name port] services Hport _ IH]; intros all_ok;
    cbn [status_loop]; [apply within_ret|].
  apply (within_bind P 0 0); [by apply within_is_port_in_use|].
  intros [|]; (apply (within_bind P 0 0); [by apply within_print|]);
    intros _; apply IH.
Qed.

Lemma within_append_running P proc :
  within (grows P 1) (append_running proc).
Proof.
  intros w. repeat split; [exists []|exists [proc]]; cbn.
  - rewrite app_nil_r. by split.
  - split; [done|lia].
Qed.

Lemma within_weaken P n m {A} (c : M A) :
  (n ≤ m)%nat → within (grows P n) c → within (grows P m) c.
Proof. intros Hle Hc w. by eapply grows_weaken. Qed.

(** Discharging what [allowed] asks of an event. *)
Ltac allow :=
  cbn; intros;
  first [ done | congruence
        | match goal with
          | H : _ ++ _ = _ ++ _ |- _ => apply app_inv_head in H; discriminate
          end ].

Lemma within_main_ollama a :
  within (grows (allowed E a) 0) (main_ollama E a).
Proof.
  unfold main_ollama. destruct (no_ollama a) eqn:Hno; cbn [negb].
  { by apply within_print. }
  apply (within_bind _ 0 0); [by apply within_check_ollama|].
  intros [|]; [by apply within_print|].
  apply (within_bind _ 0 0); [|intros _; apply within_ret].
  apply within_start_ollama; allow.
Qed.

Lemma within_track_and_settle P proc ms :
  P (Sleep ms) →
  within (grows P 1) (append_running proc;; sleep ms).
Proof.
  intros Hsleep. apply (within_bind P 1 0); [apply within_append_running|].
  intros _. by apply within_sleep.
Qed.

Lemma within_main_services a :
  within (grows (allowed E a) (if no_frontend a then 2 else 3))
         (main_services E a).
Proof.
  unfold main_services.
  assert (∀ key config,
            port config ≠ 5173 →
            (∀ dirs, cwd config = PROJECT_ROOT E ++ dirs →
                     dirs ≠ ["AWS_test"]) →
            (∃ dirs, cwd config = PROJECT_ROOT E ++ dirs) →
            within (grows (allowed E a) 0) (start_service E key config))
    as Hservice.
  { intros key config Hport Hdir (dirs & Hcwd).
    apply within_start_service; try allow.
    cbn. intros Heq. exfalso. apply (Hdir dirs Hcwd).
    rewrite Hcwd in Heq. cbn in Heq. by apply app_inv_head in Heq. }
  assert (∀ services all_ok,
            Forall (λ service, service.2 = 5173 → no_frontend a = false)
                   services →
            within (grows (allowed E a) 0) (status_loop E services all_ok))
    as Hstatus.
  { intros services all_ok Hall. apply within_status_loop; allow. }
  assert (within (grows (allowed E a) 0)
            (start_service E "ml_api" (ml_api E))) as Hml.
  { apply Hservice; [done| |by eexists]. cbn. intros dirs Heq.
    apply app_inv_head in Heq. by subst. }
  assert (within (grows (allowed E a) 0)
            (start_service E "chatbot_backend" (chatbot_backend E))) as Hback.
  { apply Hservice; [done| |by eexists]. cbn. intros dirs Heq.
    apply app_inv_head in Heq. by subst. }
  assert (∀ opt : option Popen,
            within (grows (allowed E a) 1)
              (match opt with
               | Some proc => append_running proc;; sleep 2000
               | None => ret tt
               end)) as Htrack.
  { intros [proc|]; [by apply within_track_and_settle|].
    apply (within_weaken _ 0); [lia|apply within_ret]. }
  destruct (no_frontend a) eqn:Hfront; cbn [negb].
  - apply (within_bind _ 0 2); [exact Hml|]. intros ml_proc.
    apply (within_bind _ 1 1); [apply Htrack|]. intros _.
    apply (within_bind _ 0 1); [exact Hback|]. intros backend_proc.
    apply (within_bind _ 1 0); [apply Htrack|]. intros _.
    apply (within_bind _ 0 0); [by apply within_print|]. intros _.
    apply (within_bind _ 0 0); [by apply within_print|]. intros _.
    apply (within_bind _ 0 0); [by apply within_sleep|]. intros _.
    apply (within_bind _ 0 0); [by apply within_print|]. intros _.
    apply (within_bind _ 0 0); [by apply within_print|]. intros _.
    apply (within_bind _ 0 0).
    { apply Hstatus. cbn. repeat constructor; cbn; done. }
    intros all_ok.
    apply (within_bind _ 0 0); [by apply within_print|]. intros _.
    destruct all_ok; by apply within_print.
  - apply (within_bind _ 0 3); [exact Hml|]. intros ml_proc.
    apply (within_bind _ 1 2); [apply Htrack|]. intros _.
    apply (within_bind _ 0 2); [exact Hback|]. intros backend_proc.
    apply (within_bind _ 1 1); [apply Htrack|]. intros _.
    apply (within_bind _ 1 0).
    { apply (within_bind _ 0 1).
      - apply within_start_service; allow.
      - intros [proc|]; [apply within_append_running|].
        apply (within_weaken _ 0); [lia|apply within_ret]. }
    intros _.
    apply (within_bind _ 0 0); [by apply within_print|]. intros _.
    apply (within_bind _ 0 0); [by apply within_sleep|]. intros _.
    apply (within_bind _ 0 0); [by apply within_print|]. intros _.
    apply (within_bind _ 0 0); [by apply within_print|]. intros _.
    apply (within_bind _ 0 0).
    { apply Hstatus. cbn. repeat constructor; cbn; done. }
    intros all_ok.
    apply (within_bind _ 0 0); [by apply within_print|]. intros _.
    destruct all_ok; by apply within_print.
Qed.

(** main from the moment its banner is printed. *)
Lemma main_grows a w :
  grows (allowed E a) (if no_frontend a then 2 else 3)
    (log (Printed Banner) (set_handlers Handler_cleanup w))
    (main E a w).2.
Proof.
  assert (within (grows (allowed E a) (if no_frontend a then 2 else 3))
            (main_ollama E a;; main_services E a)) as Hrest.
  { apply (within_bind _ 0); [apply within_main_ollama|].
    intros _. apply within_main_services. }
  apply Hrest.
Qed.

(** X1: main installs cleanup for SIGINT and SIGTERM and nothing in it
    takes the handlers out again; every socket it opens for a probe is
    closed again, also when main ends by an exception; it never removes or
    reorders a tracked process and appends at most three handles, at most
    two under --no-frontend. *)
Theorem main_keeps_house (a : args) (w : world) :
  sigint_handler (main E a w).2 = Handler_cleanup ∧
  sigterm_handler (main E a w).2 = Handler_cleanup ∧
  sockets (main E a w).2 = sockets w ∧
  ∃ procs,
    running_processes (main E a w).2 = running_processes w ++ procs ∧
    (length procs ≤ if no_frontend a then 2 else 3)%nat.
Proof.
  destruct (main_grows a w) as (Hs & Hi & Ht & _ & Hprocs).
  cbn in Hs, Hi, Ht, Hprocs. by repeat split.
Qed.

(** X2: main obeys its two flags throughout.  Under --no-ollama it makes no
    health request and every process it spawns is a service in its working
    directory (Ollama is not started); under --no-frontend it never
    connects to port 5173, neither at launch nor for the status table, and
    never looks up the frontend directory. *)
Theorem main_obeys_flags (a : args) (w : world) :
  (no_ollama a = true →
   ∀ ev, ev ∈ events_of (main E a) w →
         (∀ url timeout, ev ≠ Urlopen url timeout) ∧
         (∀ cmd opts, ev = Spawn cmd opts → popen_cwd opts ≠ None)) ∧
  (no_frontend a = true →
   (Connect 5173 ∉ events_of (main E a) w) ∧
   (Stat (cwd (frontend E)) ∉ events_of (main E a) w)).
Proof.
  destruct (main_grows a w) as (_ & _ & _ & (evs & Hevs & Hall) & _).
  cbn [trace log set_handlers] in Hevs. rewrite <- app_assoc in Hevs.
  rewrite (events_of_app _ _ _ Hevs).
  assert (Forall (allowed E a) ([Printed Banner] ++ evs)) as Hall'.
  { apply Forall_app. split; [by repeat constructor|done]. }
  rewrite Forall_forall in Hall'. split.
  - intros Hno ev Hev. specialize (Hall' ev Hev). split.
    + intros url timeout ->. cbn in Hall'. congruence.
    + intros cmd opts -> Hnone. cbn in Hall'. specialize (Hall' Hnone).
      congruence.
  - intros Hno. split; intros Hev; specialize (Hall' _ Hev); cbn in Hall';
      specialize (Hall' eq_refl); congruence.
Qed.

Lemma status_lines_app evs1 evs2 :
  status_lines (evs1 ++ evs2) = status_lines evs1 ++ status_lines evs2.
Proof. unfold status_lines. apply omap_app. Qed.

Lemma connects_app evs1 evs2 :
  connects (evs1 ++ evs2) = connects evs1 ++ connects evs2.
Proof. unfold connects. apply omap_app. Qed.

Lemma status_loop_run services : ∀ all_ok w,
  ∃ evs,
    trace (status_loop E services all_ok w).2 = trace w ++ evs ∧
    match (status_loop E services all_ok w).1 with
    | Ret b =>
        (status_lines evs).*1 = services ∧
        connects evs = services.*2 ∧
        b = all_ok && forallb snd (status_lines evs) ∧
        Forall (λ line, ∃ τ rc, (connect_ex E line.1.2 τ).1 = Done rc ∧
                                line.2 = (rc =? 0))
               (status_lines evs)
    | Raise e =>
        ∃ err service τ,
          service ∈ services ∧
          (connect_ex E service.2 τ).1 = Failed err ∧ e = Exception err
    end.
Proof.
  induction services as [|[name port] services IH]; intros all_ok w.
  { exists []. cbn. rewrite app_nil_r, andb_true_r. repeat split.
    constructor. }
  destruct (connect_ex E port (now w)).1 as [rc|err] eqn:Hrc.
  - set (line := Printed (if rc =? 0 then Status_running name port
                          else Status_not_responding name port)).
    set (w1 := log line (probed E port w)).
    destruct (IH (if rc =? 0 then all_ok else false) w1)
      as (evs & Htrace & Hresult).
    exists ([Socket_open; Connect port; Socket_close; line] ++ evs).
    assert (status_loop E ((name, port) :: services) all_ok w
            = status_loop E services (if rc =? 0 then all_ok else false) w1)
      as ->.
    { cbn [status_loop]. unfold bind at 1. rewrite is_port_in_use_run, Hrc.
      subst w1 line. by destruct (rc =? 0). }
    split.
    { rewrite Htrace. subst w1. cbn [trace log].
      rewrite probed_trace, <- !app_assoc. reflexivity. }
    destruct (status_loop E services _ w1).1 as [b|e].
    2: { destruct Hresult as (err & service & τ & Hin & Hfail & ->).
         exists err, service, τ. split; [by right|done]. }
    destruct Hresult as (Hlines & Hconnects & Hb & Hprobes).
    rewrite status_lines_app, connects_app.
    assert (status_lines [Socket_open; Connect port; Socket_close; line]
            = [(name, port, rc =? 0)]) as ->.
    { subst line. by destruct (rc =? 0). }
    assert (connects [Socket_open; Connect port; Socket_close; line]
            = [port]) as ->.
    { subst line. by destruct (rc =? 0). }
    cbn. rewrite Hlines, Hconnects. repeat split.
    + rewrite Hb. destruct (rc =? 0), all_ok; reflexivity.
    + constructor; [|exact Hprobes]. exists (now w), rc. by split.
  - exists [Socket_open; Connect port; Socket_close].
    assert (status_loop E ((name, port) :: services) all_ok w
            = (Raise (Exception err), probed E port w)) as ->.
    { cbn [status_loop]. unfold bind at 1.
      by rewrite is_port_in_use_run, Hrc. }
    cbn [fst snd]. split; [apply probed_trace|].
    exists err, (name, port), (now w). split; [by left|done].
Qed.

(** X3: the status table of main probes every service on the list, in list
    order and exactly once, also after one was found down; it prints one
    line per service that says what that service's probe answered; and the
    flag it returns is True exactly when the flag it started from was True
    and every line says running.  The loop raises only what the probe of
    one of the services raised. *)
Theorem status_loop_table (services : list (string * Z)) (all_ok : bool)
    (w : world) :
  match (status_loop E services all_ok w).1 with
  | Ret b =>
      (status_lines (events_of (status_loop E services all_ok) w)).*1
        = services ∧
      connects (events_of (status_loop E services all_ok) w) = services.*2 ∧
      b = all_ok &&
          forallb snd
            (status_lines (events_of (status_loop E services all_ok) w)) ∧
      Forall (λ line, ∃ τ rc, (connect_ex E line.1.2 τ).1 = Done rc ∧
                              line.2 = (rc =? 0))
             (status_lines (events_of (status_loop E services all_ok) w))
  | Raise e =>
      ∃ err service τ,
        service ∈ services ∧
        (connect_ex E service.2 τ).1 = Failed err ∧ e = Exception err
  end.
Proof.
  destruct (status_loop_run services all_ok w) as (evs & Htrace & Hresult).
  by rewrite (events_of_app _ _ _ Htrace).
Qed.

Lemma start_service_lookup_raises key config w err :
  (is_port_in_use E (port config) w).1 = Ret false →
  (path_exists E (cwd config) (looked_up E config w)).1 = Failed err →
  ∃ w',
    start_service E key config w = (Raise (Exception err), w') ∧
    trace w' = trace w ++
      [Socket_open; Connect (port config); Socket_close; Stat (cwd config)].
Proof.
  intros Hclosed Hdir. rewrite (start_service_closed _ _ _ _ Hclosed).
  unfold looked_up in Hdir. unfold call, bind, emit, ask.
  cbn [log now]. rewrite Hdir.
  eexists. split; [reflexivity|].
  cbn [trace log advance]. rewrite probed_trace, <- !app_assoc. reflexivity.
Qed.

(** Every way start_service can go, by what the probe, the directory
    lookup and the spawn request answer: its result and the events it
    adds. *)
Lemma start_service_cases key config w :
  ∃ evs,
    trace (start_service E key config w).2 = trace w ++ evs ∧
    running_processes (start_service E key config w).2
      = running_processes w ∧
    match (is_port_in_use E (port config) w).1 with
    | Raise e =>
        (start_service E key config w).1 = Raise e ∧ spawns evs = []
    | Ret true =>
        (start_service E key config w).1 = Ret None ∧ spawns evs = []
    | Ret false =>
        match (path_exists E (cwd config) (looked_up E config w)).1 with
        | Failed err =>
            (start_service E key config w).1 = Raise (Exception err) ∧
            spawns evs = []
        | Done false =>
            (start_service E key config w).1 = Ret None ∧ spawns evs = []
        | Done true =>
            spawns evs
              = [if win32 E then cmd_windows config else cmd_unix config] ∧
            match (launch E config (launched E config w)).1 with
            | Done proc => (start_service E key config w).1 = Ret (Some proc)
            | Failed _ => (start_service E key config w).1 = Ret None
            end
        end
    end.
Proof.
  destruct (is_port_in_use E (port config) w).1 as [[|]|e] eqn:Hprobe.
  - rewrite (start_service_open _ _ _ _ Hprobe). eexists.
    split.
    { cbn [snd trace log]. rewrite probed_trace, <- app_assoc.
      reflexivity. }
    split; [reflexivity|split; reflexivity].
  - destruct (path_exists E (cwd config) (looked_up E config w)).1
      as [[|]|err] eqn:Hdir.
    + destruct (launch E config (launched E config w)).1
        as [proc|err] eqn:Hspawn.
      * destruct (start_service_spawned _ key config w proc Hprobe Hdir
                    Hspawn) as (w' & -> & Htrace & Hsame).
        eexists. split; [exact Htrace|]. by repeat split.
      * destruct (start_service_spawn_error _ key config w err Hprobe Hdir
                    Hspawn) as (w' & -> & Htrace & Hsame).
        eexists. split; [exact Htrace|]. by repeat split.
    + destruct (start_service_no_directory _ key config w Hprobe Hdir)
        as (w' & -> & Htrace & Hsame).
      eexists. split; [exact Htrace|]. by repeat split.
    + destruct (start_service_lookup_raises key config w err Hprobe Hdir)
        as (w' & Hrun & Htrace).
      assert (running_processes w' = running_processes w) as Hsame.
      { pose proof (within_start_service (λ _, True) key config
                      ltac:(done) ltac:(done) ltac:(done) ltac:(done)
                      ltac:(done) ltac:(done) w)
          as (_ & _ & _ & _ & procs & Hprocs & Hlen).
        rewrite Hrun in Hprocs. destruct procs; [|cbn in Hlen; lia].
        by rewrite app_nil_r in Hprocs. }
      rewrite Hrun. eexists. split; [exact Htrace|]. by repeat split.
  - rewrite (start_service_probe_raises _ _ _ _ _ Hprobe). eexists.
    split; [cbn [snd]; apply probed_trace|].
    split; [reflexivity|split; reflexivity].
Qed.

(** X4: start_service returns a process handle exactly when the probe
    found the port closed, the working directory exists and the spawn
    request was accepted; the handle is the one the spawn gave.  A call
    spawns at most one process, of the command of the platform
    (cmd_windows on win32, cmd_unix otherwise), and leaves
    running_processes alone: tracking is main's business. *)
Theorem start_service_returns_handle (key : string) (config : service)
    (w : world) :
  (∀ proc,
     (start_service E key config w).1 = Ret (Some proc) ↔
     (is_port_in_use E (port config) w).1 = Ret false ∧
     (path_exists E (cwd config) (looked_up E config w)).1 = Done true ∧
     (launch E config (launched E config w)).1 = Done proc) ∧
  (∀ proc,
     (start_service E key config w).1 = Ret (Some proc) →
     spawns (events_of (start_service E key config) w)
       = [if win32 E then cmd_windows config else cmd_unix config]) ∧
  (length (spawns (events_of (start_service E key config) w)) ≤ 1)%nat ∧
  running_processes (start_service E key config w).2 = running_processes w.
Proof.
  destruct (start_service_cases key config w) as (evs & Htrace & Hsame & Hcase).
  rewrite (events_of_app _ _ _ Htrace).
  destruct (is_port_in_use E (port config) w).1 as [[|]|e];
    [|destruct (path_exists E (cwd config) (looked_up E config w)).1
        as [[|]|err];
      [destruct (launch E config (launched E config w)).1 as [p|err]|..]|];
    repeat match goal with
           | H : _ ∧ _ |- _ => destruct H as [? ?]
           end;
    (split_and!;
     [ intros proc; split;
       [intros Hr; split_and!; congruence|intros (H1 & H2 & H3); congruence]
     | intros proc Hr; congruence
     | first [ replace (spawns evs) with (@nil (list string)) by done;
               cbn; lia
             | match goal with H : spawns evs = _ |- _ => rewrite H end;
               cbn; lia ]
     | done ]).
Qed.

(** X5: an exception leaves start_service exactly when the port probe
    raised it, or the probe found the port closed and the directory lookup
    raised it; an error of the spawn request itself never gets out.  When
    start_service raises it has spawned nothing. *)
Theorem start_service_raises (key : string) (config : service) (w : world) :
  (∀ e,
     (start_service E key config w).1 = Raise e ↔
     (is_port_in_use E (port config) w).1 = Raise e ∨
     ((is_port_in_use E (port config) w).1 = Ret false ∧
      ∃ err, (path_exists E (cwd config) (looked_up E config w)).1
               = Failed err ∧
             e = Exception err)) ∧
  (∀ e, (start_service E key config w).1 = Raise e →
        spawns (events_of (start_service E key config) w) = []).
Proof.
  destruct (start_service_cases key config w) as (evs & Htrace & Hsame & Hcase).
  rewrite (events_of_app _ _ _ Htrace).
  destruct (is_port_in_use E (port config) w).1 as [[|]|e0];
    [|destruct (path_exists E (cwd config) (looked_up E config w)).1
        as [[|]|err0];
      [destruct (launch E config (launched E config w)).1 as [p|err0]|..]|];
    repeat match goal with
           | H : _ ∧ _ |- _ => destruct H as [? ?]
           end;
    (split;
     [ intros x; split;
       [ intros Hr;
         first [ congruence
               | left; congruence
               | right; split; [congruence|];
                 eexists; split; [reflexivity|congruence] ]
       | intros [Hl|[Hl (err' & Hp & He)]]; congruence ]
     | intros x Hr; congruence ]).
Qed.

Lemma wait_loop_past_deadline port start timeout w :
  1000 * timeout ≤ now w - start →
  wait_loop E port start timeout w = (Ret false, w).
Proof.
  intros Hpast.
  apply (wait_loop_rounds E
           (λ w out, 1000 * timeout ≤ now w - start → out = (Ret false, w)));
    [done|intros; lia..|done].
Qed.

(** X6: with a timeout of zero or less wait_for_service returns False at
    once: it does not probe the port, not even once, lets no time pass and
    leaves the world as it was, whether or not the port is open. *)
Theorem wait_for_service_without_time (port timeout : Z) (w : world) :
  timeout ≤ 0 →
  wait_for_service E port timeout w = (Ret false, w).
Proof.
  intros Hnone. unfold wait_for_service, bind, time_time.
  apply wait_loop_past_deadline. lia.
Qed.

Lemma wait_loop_probes port start timeout : ∀ w,
  ∃ evs,
    trace (wait_loop E port start timeout w).2 = trace w ++ evs ∧
    500 * Z.of_nat (length (connects evs))
      < Z.max 0 (start + 1000 * timeout - now w) + 500 ∧
    Forall (eq port) (connects evs) ∧
    spawns evs = [] ∧
    sockets (wait_loop E port start timeout w).2 = sockets w ∧
    running_processes (wait_loop E port start timeout w).2
      = running_processes w.
Proof.
  apply (wait_loop_rounds E
           (λ w out,
              ∃ evs,
                trace out.2 = trace w ++ evs ∧
                500 * Z.of_nat (length (connects evs))
                  < Z.max 0 (start + 1000 * timeout - now w) + 500 ∧
                Forall (eq port) (connects evs) ∧
                spawns evs = [] ∧
                sockets out.2 = sockets w ∧
                running_processes out.2 = running_processes w));
    cbn [fst snd].
  - intros w Hge. exists []. rewrite app_nil_r. cbn.
    repeat split; [lia|constructor].
  - intros w w1 Hlt Hprobe. rewrite is_port_in_use_run in Hprobe.
    injection Hprobe as _ <-.
    exists [Socket_open; Connect port; Socket_close].
    split; [apply probed_trace|]. cbn.
    repeat split; [lia|by repeat constructor].
  - intros w w1 Hlt Hprobe
           (evs & Htrace & Hcount & Hports & Hspawns & Hsockets & Hprocs).
    pose proof (is_port_in_use_inv E _ _ _ _ Hprobe) as (Hnow & _).
    rewrite is_port_in_use_run in Hprobe. injection Hprobe as _ <-.
    exists ([Socket_open; Connect port; Socket_close; Sleep 500] ++ evs).
    cbn [sleep snd trace log advance now sockets running_processes] in *.
    split.
    { rewrite Htrace, probed_trace, <- !app_assoc. reflexivity. }
    rewrite connects_app. unfold spawns in *. rewrite omap_app, Hspawns.
    cbn. repeat split; [lia|by constructor|done|done].
  - intros w w1 e Hlt Hprobe. rewrite is_port_in_use_run in Hprobe.
    injection Hprobe as _ <-.
    exists [Socket_open; Connect port; Socket_close].
    split; [apply probed_trace|]. cbn.
    repeat split; [lia|by repeat constructor].
Qed.

(** X7: wait_for_service connects to no port but the one it was given and
    makes at most two probes per second of timeout (none for a timeout of
    zero or less); it spawns nothing, tracks nothing and holds no socket
    open when it is done, whether it returns or a probe raises. *)
Theorem wait_for_service_probe_budget (port timeout : Z) (w : world) :
  (length (connects (events_of (wait_for_service E port timeout) w))
   ≤ Z.to_nat (2 * timeout))%nat ∧
  Forall (eq port) (connects (events_of (wait_for_service E port timeout) w)) ∧
  spawns (events_of (wait_for_service E port timeout) w) = [] ∧
  sockets (wait_for_service E port timeout w).2 = sockets w ∧
  running_processes (wait_for_service E port timeout w).2
    = running_processes w.
Proof.
  destruct (wait_loop_probes port (now w) timeout w)
    as (evs & Htrace & Hcount & Hports & Hspawns & Hsockets & Hprocs).
  assert (trace (wait_for_service E port timeout w).2 = trace w ++ evs)
    as Htrace' by exact Htrace.
  rewrite (events_of_app _ _ _ Htrace').
  unfold wait_for_service, bind, time_time. cbn [fst snd].
  repeat split; try done. lia.
Qed.







Lemma proceeds_ret {A} (a : A) : proceeds [] (ret a).
Proof. intros w. exists a, w, []. by rewrite app_nil_r. Qed.

Lemma proceeds_bind l1 l2 {A B} (c : M A) (k : A → M B) :
  proceeds l1 c → (∀ a, proceeds l2 (k a)) → proceeds (l1 ++ l2) (bind c k).
Proof.
  intros Hc Hk w. destruct (Hc w) as (a & w1 & evs1 & Hrun & Htrace & Hl1).
  destruct (Hk a w1) as (b & w2 & evs2 & Hrun2 & Htrace2 & Hl2).
  exists b, w2, (evs1 ++ evs2). unfold bind. rewrite Hrun, Hrun2.
  split; [done|]. split; [by rewrite Htrace2, Htrace, app_assoc|].
  by rewrite connects_app, Hl1, Hl2.
Qed.

Lemma proceeds_print m : proceeds [] (print m).
Proof. intros w. by exists tt, (log (Printed m) w), [Printed m]. Qed.

Lemma proceeds_sleep ms : proceeds [] (sleep ms).
Proof.
  intros w. by exists tt, (advance ms (log (Sleep ms) w)), [Sleep ms].
Qed.

Lemma proceeds_append_running proc : proceeds [] (append_running proc).
Proof.
  intros w. eexists tt, _, []. split; [reflexivity|].
  cbn. by rewrite app_nil_r.
Qed.

Lemma no_connects evs :
  Forall (λ ev, connects [ev] = []) evs → connects evs = [].
Proof.
  induction 1 as [|ev evs Hev _ IH]; [done|].
  change (ev :: evs) with ([ev] ++ evs). by rewrite connects_app, Hev, IH.
Qed.

Lemma proceeds_main_ollama a : proceeds [] (main_ollama E a).
Proof.
  intros w. destruct (main_ollama_returns E a w) as (w' & Hrun & _).
  assert (within (grows (λ ev, connects [ev] = []) 0) (main_ollama E a))
    as Hquiet.
  { unfold main_ollama. destruct (no_ollama a); cbn [negb].
    { by apply within_print. }
    apply (within_bind _ 0 0); [by apply within_check_ollama|].
    intros [|]; [by apply within_print|].
    apply (within_bind _ 0 0); [|intros _; apply within_ret].
    by apply within_start_ollama. }
  destruct (Hquiet w) as (_ & _ & _ & (evs & Htrace & Hall) & _).
  rewrite Hrun in Htrace. exists tt, w', evs.
  split; [done|]. split; [done|by apply no_connects].
Qed.

Section answering.
Hypothesis connect_answers : ∀ port τ, ∃ rc, (connect_ex E port τ).1 = Done rc.
Hypothesis lookup_answers : ∀ dir τ, ∃ b, (path_exists E dir τ).1 = Done b.

Lemma probe_returns port w :
  ∃ b, (is_port_in_use E port w).1 = Ret b.
Proof.
  rewrite is_port_in_use_run. destruct (connect_answers port (now w)) as [rc ->].
  by eexists.
Qed.

Lemma proceeds_start_service key config :
  proceeds [port config] (start_service E key config).
Proof.
  intros w. destruct (probe_returns (port config) w) as [[|] Hprobe].
  { rewrite (start_service_open _ _ _ _ Hprobe). eexists _, _, _.
    split; [reflexivity|]. split.
    - cbn [trace log]. rewrite probed_trace, <- app_assoc. reflexivity.
    - reflexivity. }
  destruct (lookup_answers (cwd config) (looked_up E config w))
    as [[|] Hdir].
  - destruct (launch E config (launched E config w)).1 as [proc|err] eqn:Hs.
    + destruct (start_service_spawned _ key config w proc Hprobe Hdir Hs)
        as (w' & -> & Htrace & _).
      eexists _, _, _. split; [reflexivity|]. split; [exact Htrace|done].
    + destruct (start_service_spawn_error _ key config w err Hprobe Hdir Hs)
        as (w' & -> & Htrace & _).
      eexists _, _, _. split; [reflexivity|]. split; [exact Htrace|done].
  - destruct (start_service_no_directory _ key config w Hprobe Hdir)
      as (w' & -> & Htrace & _).
    eexists _, _, _. split; [reflexivity|]. split; [exact Htrace|done].
Qed.

Lemma proceeds_status_loop services all_ok :
  proceeds services.*2 (status_loop E services all_ok).
Proof.
  intros w. destruct (status_loop_run services all_ok w)
    as (evs & Htrace & Hresult).
  destruct (status_loop E services all_ok w) as [[b|e] w'] eqn:Hrun;
    cbn [fst snd] in *.
  - exists b, w', evs. by destruct Hresult as (_ & -> & _).
  - destruct Hresult as (err & service & τ & _ & Hfail & _).
    destruct (connect_answers service.2 τ) as [rc Hrc]. congruence.
Qed.

Lemma proceeds_main_services a :
  proceeds ([3002; 3001] ++ (if no_frontend a then [] else [5173])
            ++ [3002; 3001; 11434]
            ++ (if no_frontend a then [] else [5173]))
           (main_services E a).
Proof.
  unfold main_services.
  assert (∀ opt : option Popen,
            proceeds []
              (match opt with
               | Some proc => append_running proc;; sleep 2000
               | None => ret tt
               end)) as Htrack.
  { intros [proc|]; [|apply proceeds_ret].
    apply (proceeds_bind [] []); [apply proceeds_append_running|].
    intros _. apply proceeds_sleep. }
  apply (proceeds_bind [3002]); [apply (proceeds_start_service _ (ml_api E))|].
  intros ml_proc. apply (proceeds_bind []); [apply Htrack|]. intros _.
  apply (proceeds_bind [3001]);
    [apply (proceeds_start_service _ (chatbot_backend E))|].
  intros backend_proc. apply (proceeds_bind []); [apply Htrack|]. intros _.
  apply (proceeds_bind (if no_frontend a then [] else [5173])).
  { destruct (no_frontend a); cbn [negb]; [apply proceeds_print|].
    apply (proceeds_bind [5173] []);
      [apply (proceeds_start_service _ (frontend E))|].
    intros [proc|]; [apply proceeds_append_running|apply proceeds_ret]. }
  intros _. apply (proceeds_bind []); [apply proceeds_print|]. intros _.
  apply (proceeds_bind []); [apply proceeds_sleep|]. intros _.
  apply (proceeds_bind []); [apply proceeds_print|]. intros _.
  apply (proceeds_bind []); [apply proceeds_print|]. intros _.
  match goal with |- proceeds ?l _ => rewrite <- (app_nil_r l) end.
  apply proceeds_bind.
  { pose proof (proceeds_status_loop
                  ([("ML API", 3002); ("Chatbot Backend", 3001);
                    ("Ollama", 11434)]
                   ++ (if negb (no_frontend a)
                       then [("Frontend", 5173)] else [])) true) as Hloop.
    by destruct (no_frontend a). }
  intros all_ok. apply (proceeds_bind [] []); [apply proceeds_print|].
  intros _. destruct all_ok; apply proceeds_print.
Qed.

End answering.

(** X9: one service that cannot be started does not stop the others.
    When the port probes and the directory lookups answer (as they do
    unless the operating system itself fails), main gets through to its
    keep-alive loop (the end of line 270) whatever each answer is and
    whatever the spawn requests and Ollama do,
    and it connects to the ports in one fixed order: 3002 and 3001 (and
    5173 unless --no-frontend) to launch, then 3002, 3001 and 11434 (and
    5173) for the status table. *)
Theorem main_attempts_every_service (a : args) (w : world) :
  (∀ port τ, ∃ rc, (connect_ex E port τ).1 = Done rc) →
  (∀ dir τ, ∃ b, (path_exists E dir τ).1 = Done b) →
  (main E a w).1 = Ret tt ∧
  connects (events_of (main E a) w)
    = [3002; 3001] ++ (if no_frontend a then [] else [5173])
      ++ [3002; 3001; 11434] ++ (if no_frontend a then [] else [5173]).
Proof.
  intros Hconnect Hlookup.
  assert (proceeds ([] ++ [] ++ [] ++
                    ([3002; 3001] ++ (if no_frontend a then [] else [5173])
                     ++ [3002; 3001; 11434]
                     ++ (if no_frontend a then [] else [5173])))
            (main E a)) as Hmain.
  { unfold main. apply proceeds_bind.
    { intros w0. eexists tt, _, []. split; [reflexivity|].
      cbn. by rewrite app_nil_r. }
    intros _. apply proceeds_bind; [apply proceeds_print|].
    intros _. apply proceeds_bind; [apply proceeds_main_ollama|].
    intros _. by apply proceeds_main_services. }
  destruct (Hmain w) as ([] & w' & evs & Hrun & Htrace & Hports).
  assert (trace (main E a w).2 = trace w ++ evs) as Htrace'
    by (by rewrite Hrun).
  rewrite (events_of_app _ _ _ Htrace'), Hrun. split; [done|exact Hports].
Qed.

End start_all_more.

(** ** Theorems: the prediction servers *)

Section servers_props.
Import MlApi Servers.

Variable model_predict : list pyval → attempt Z.
Variable str : failure → string.

(** The columns the model is asked about are always there, in the order
    of FEATURES. *)
Lemma select_features (d : gmap string pyval) :
  select FEATURES (prepare_features d) = Ok (feature_row d).
Proof. reflexivity. Qed.


Lemma predict_try_dict items raw :
  items ≠ [] →
  model_predict (feature_row (list_to_map items)) = Ok raw →
  predict_try model_predict (Ok (PyDict items))
  = Ok (<["input" :=
           PyDict
             [("species",
               dict_get (list_to_map items) "species" (PyStr "Oyster"));
              ("temperature_c",
               dict_get (list_to_map items) "temperature_c" (PyInt 22));
              ("humidity_pct",
               dict_get (list_to_map items) "humidity_pct" (PyInt 85));
              ("co2_ppm", dict_get (list_to_map items) "co2_ppm" (PyInt 800));
              ("substrate_moisture",
               dict_get (list_to_map items) "substrate_moisture" (PyInt 65));
              ("light_lux",
               dict_get (list_to_map items) "light_lux" (PyInt 200));
              ("water_quality_index",
               dict_get (list_to_map items) "water_quality_index"
                 (PyInt 80))]]>
          (classify_yield (raw + 3)), 200).
Proof.
  intros Hitems Hmodel. destruct items as [|entry items]; [done|].
  unfold predict_try. cbn [and_then truthy negb dict_of].
  rewrite select_features. cbn [and_then]. rewrite Hmodel. reflexivity.
Qed.



Lemma predict_model_fails items e :
  items ≠ [] →
  model_predict (feature_row (list_to_map items)) = Error e →
  predict model_predict str (Ok (PyDict items)) = (error_body (str e), 500).
Proof.
  intros Hitems Hmodel. destruct items as [|entry items]; [done|].
  unfold predict, predict_try. cbn [and_then truthy negb dict_of].
  rewrite select_features. cbn [and_then]. by rewrite Hmodel.
Qed.



Lemma classify_yield_cycle hc :
  classify_yield hc !! "harvest_cycle" = Some (PyInt hc).
Proof.
  unfold classify_yield.
  destruct (hc =? 6); [|destruct (hc =? 5); [|destruct (hc =? 4)]];
    apply yield_dict_cycle.
Qed.


(** X12: the two servers classify alike: for every harvest cycle
    fastapi_server.py's classify_yield gives the category, colour and
    description that ml_api.py's gives, under the keys yield_category,
    yield_color and description; its dict has these three keys only (the
    harvest cycle is not in it), and its category is always one of the four
    that PredictionResponse accepts. *)
Theorem classify_yield_agree (harvest_cycle : Z) :
  fastapi_classify_yield harvest_cycle !! "yield_category"
    = classify_yield harvest_cycle !! "category" ∧
  fastapi_classify_yield harvest_cycle !! "yield_color"
    = classify_yield harvest_cycle !! "color" ∧
  fastapi_classify_yield harvest_cycle !! "description"
    = classify_yield harvest_cycle !! "description" ∧
  dom (fastapi_classify_yield harvest_cycle)
    = {["yield_category"; "yield_color"; "description"]} ∧
  ∃ c, fastapi_classify_yield harvest_cycle !! "yield_category"
         = Some (PyStr c) ∧
       category_literal (PyStr c) = Ok (PyStr c).
Proof.
  unfold fastapi_classify_yield, classify_yield.
  destruct (harvest_cycle =? 6);
    [|destruct (harvest_cycle =? 5); [|destruct (harvest_cycle =? 4)]];
    (split_and!; [reflexivity..| |by eexists]);
    unfold yield_fields; rewrite !dom_insert_L, dom_empty_L; set_solver.
Qed.

Lemma request_features_flask request :
  request_features request = prepare_features (as_flask_request request).
Proof. reflexivity. Qed.

Lemma select_request_features request :
  select FASTAPI_FEATURES (request_features request)
  = Ok (feature_row (as_flask_request request)).
Proof. reflexivity. Qed.

(** X13: fastapi_server.py builds the feature dict that ml_api.py's
    prepare_features builds from the same species and readings, so the two
    servers ask the model about the same row; and for a species of the
    request's Literal exactly one of the five variety columns is 1. *)
Theorem request_features_agree (request : PredictionRequest) :
  request_features request = prepare_features (as_flask_request request) ∧
  select FASTAPI_FEATURES (request_features request)
    = select FEATURES (prepare_features (as_flask_request request)) ∧
  (species request ∈ SPECIES → hot_count (request_features request) = 1%nat).
Proof.
  split; [reflexivity|]. split; [reflexivity|].
  unfold SPECIES. rewrite !elem_of_cons, elem_of_nil.
  rewrite request_features_flask.
  intros [H|[H|[H|[H|[H|[]]]]]];
    erewrite hot_count_cases
      by (unfold dict_get, as_flask_request; cbn; rewrite H; reflexivity);
    reflexivity.
Qed.

Lemma fastapi_predict_ok request raw :
  model_predict (feature_row (as_flask_request request)) = Ok raw →
  (fastapi_predict model_predict str request).2 = 200 ∧
  (fastapi_predict model_predict str request).1 !! "harvest_cycle"
    = Some (PyInt (raw + 3)) ∧
  (fastapi_predict model_predict str request).1 !! "yield_category"
    = classify_yield (raw + 3) !! "category" ∧
  (fastapi_predict model_predict str request).1 !! "yield_color"
    = classify_yield (raw + 3) !! "color" ∧
  (fastapi_predict model_predict str request).1 !! "description"
    = classify_yield (raw + 3) !! "description".
Proof.
  intros Hmodel. unfold fastapi_predict, fastapi_predict_try.
  rewrite select_request_features. cbn [and_then]. rewrite Hmodel.
  cbn [and_then]. unfold fastapi_classify_yield, classify_yield.
  destruct (raw + 3 =? 6);
    [|destruct (raw + 3 =? 5); [|destruct (raw + 3 =? 4)]];
    by split_and!.
Qed.

Lemma fastapi_predict_error request e :
  model_predict (feature_row (as_flask_request request)) = Error e →
  fastapi_predict model_predict str request
  = ({["detail" := PyStr (str e)]}, 500).
Proof.
  intros Hmodel. unfold fastapi_predict, fastapi_predict_try.
  rewrite select_request_features. cbn [and_then]. by rewrite Hmodel.
Qed.

(** X14: the two servers answer alike.  For a request that fastapi_server.py
    has accepted and a body for ml_api.py with the same species and
    readings, both answer 200 when the model answers for the row and 500
    when it raises, and on 200 both report the same harvest cycle,
    category, colour and description. *)
Theorem servers_agree (request : PredictionRequest)
    (items : list (string * pyval)) :
  list_to_map items = as_flask_request request →
  (predict model_predict str (Ok (PyDict items))).2
    = (fastapi_predict model_predict str request).2 ∧
  ((fastapi_predict model_predict str request).2 = 200 ↔
   ∃ raw, model_predict (feature_row (as_flask_request request)) = Ok raw) ∧
  ((fastapi_predict model_predict str request).2 = 200 →
   (predict model_predict str (Ok (PyDict items))).1 !! "harvest_cycle"
     = (fastapi_predict model_predict str request).1 !! "harvest_cycle" ∧
   (predict model_predict str (Ok (PyDict items))).1 !! "category"
     = (fastapi_predict model_predict str request).1 !! "yield_category" ∧
   (predict model_predict str (Ok (PyDict items))).1 !! "color"
     = (fastapi_predict model_predict str request).1 !! "yield_color" ∧
   (predict model_predict str (Ok (PyDict items))).1 !! "description"
     = (fastapi_predict model_predict str request).1 !! "description").
Proof.
  intros Hitems.
  assert (items ≠ []) as Hne.
  { intros ->. apply (f_equal (λ m : gmap string pyval, m !! "species"))
      in Hitems. by cbn in Hitems. }
  destruct (model_predict (feature_row (as_flask_request request)))
    as [raw|e] eqn:Hmodel.
  - destruct (fastapi_predict_ok request raw Hmodel)
      as (-> & Hcycle & Hcat & Hcol & Hdesc).
    rewrite Hcycle, Hcat, Hcol, Hdesc.
    rewrite <- Hitems in Hmodel. unfold predict.
    rewrite (predict_try_dict _ _ Hne Hmodel). cbn [fst snd].
    split; [done|]. split; [split; [by eexists|done]|].
    intros _. rewrite !lookup_insert_ne by done.
    split; [apply classify_yield_cycle|done].
  - rewrite (fastapi_predict_error request e Hmodel).
    rewrite <- Hitems in Hmodel.
    rewrite (predict_model_fails _ _ Hne Hmodel). cbn [fst snd].
    split; [done|]. split; [|done].
    split; [done|]. by intros [raw [=]].
Qed.

Lemma select_ext columns (row1 row2 : gmap string pyval) :
  (∀ c, c ∈ columns → row1 !! c = row2 !! c) →
  select columns row1 = select columns row2.
Proof.
  intros Hsame. unfold select.
  assert (filter (λ c, row1 !! c = None) columns
          = filter (λ c, row2 !! c = None) columns ∧
          omap (λ c, row1 !! c) columns = omap (λ c, row2 !! c) columns)
    as [-> ->]; [|done].
  induction columns as [|c columns IH]; [done|].
  destruct IH as [IHf IHo]; [intros c' Hc'; apply Hsame; by right|].
  rewrite !filter_cons. cbn [omap list_omap]. rewrite IHf, IHo.
  by rewrite (Hsame c) by (by left).
Qed.

Lemma select_missing columns (row : gmap string pyval) c :
  c ∈ columns → row !! c = None →
  ∃ missing, c ∈ missing ∧ select columns row = Error (KeyError missing).
Proof.
  intros Hc Hnone. unfold select.
  assert (c ∈ filter (λ c, row !! c = None) columns) as Hin
    by (by apply list_elem_of_filter).
  destruct (filter (λ c, row !! c = None) columns) as [|c' missing] eqn:Hf.
  - by apply elem_of_nil in Hin.
  - by exists (c' :: missing).
Qed.

Lemma select_present columns (row : gmap string pyval) :
  (∀ c, c ∈ columns → is_Some (row !! c)) →
  ∃ values, length values = length columns ∧ select columns row = Ok values.
Proof.
  intros Hall. unfold select.
  assert (filter (λ c, row !! c = None) columns = [] ∧
          length (omap (λ c, row !! c) columns) = length columns)
    as [-> Hlen]; [|by eexists].
  induction columns as [|c columns IH]; [done|].
  destruct IH as [IHf IHo]; [intros c' Hc'; apply Hall; by right|].
  destruct (Hall c ltac:(by left)) as [v Hv].
  rewrite filter_cons, decide_False by congruence.
  cbn [omap list_omap]. rewrite Hv. cbn. by rewrite IHo.
Qed.

(** X15: pythonml.py's predict_yield looks at its eleven FEATURES columns
    and at nothing else: a key outside FEATURES changes nothing; when all
    eleven are there it asks the model about their eleven values and
    returns the model's class plus 3 (or what the model raises); a missing
    column makes it raise KeyError naming that column, whatever the model
    would have said. *)
Theorem predict_yield_columns (input_data : gmap string pyval) :
  (∀ k v, k ∉ PYTHONML_FEATURES →
          predict_yield model_predict (<[k := v]> input_data)
          = predict_yield model_predict input_data) ∧
  ((∀ c, c ∈ PYTHONML_FEATURES → is_Some (input_data !! c)) →
   ∃ values,
     length values = 11%nat ∧
     predict_yield model_predict input_data
     = match model_predict values with
       | Ok prediction => Ok (prediction + 3)
       | Error e => Error e
       end) ∧
  (∀ c, c ∈ PYTHONML_FEATURES → input_data !! c = None →
        ∃ missing, c ∈ missing ∧
                   predict_yield model_predict input_data
                   = Error (KeyError missing)).
Proof.
  split_and!.
  - intros k v Hk. unfold predict_yield.
    rewrite (select_ext _ (<[k:=v]> input_data) input_data); [done|].
    intros c Hc. apply lookup_insert_ne. by intros ->.
  - intros Hall. destruct (select_present _ _ Hall) as (values & Hlen & Hsel).
    exists values. split; [exact Hlen|]. unfold predict_yield.
    rewrite Hsel. cbn. by destruct (model_predict values).
  - intros c Hc Hnone.
    destruct (select_missing _ _ c Hc Hnone) as (missing & Hin & Hsel).
    exists missing. split; [done|]. unfold predict_yield. by rewrite Hsel.
Qed.

(** X16: ml_api.py and pythonml.py do not hand the model the same row.
    From the features that prepare_features builds, pythonml.py's FEATURES
    selects the same eleven values as ml_api.py's, but with the variety
    columns in the order Button, Oyster, Shiitake, Lions Mane, Reishi
    instead of Button, Lions Mane, Oyster, Reishi, Shiitake; so the two rows
    differ whenever the species is Lions Mane, Oyster (also by default),
    Reishi or Shiitake, and coincide for every other species. *)
Theorem column_orders_differ (d : gmap string pyval) :
  ∃ row,
    select PYTHONML_FEATURES (prepare_features d) = Ok row ∧
    row ≡ₚ feature_row d ∧
    (∀ v, v ∈ ["Lions Mane"; "Oyster"; "Reishi"; "Shiitake"] →
          dict_get d "species" (PyStr "Oyster") = PyStr v →
          row ≠ feature_row d) ∧
    ((∀ v, v ∈ ["Lions Mane"; "Oyster"; "Reishi"; "Shiitake"] →
           dict_get d "species" (PyStr "Oyster") ≠ PyStr v) →
     row = feature_row d).
Proof.
  exists [dict_get d "humidity_pct" (PyInt 85);
          dict_get d "co2_ppm" (PyInt 800);
          dict_get d "substrate_moisture" (PyInt 65);
          dict_get d "light_lux" (PyInt 200);
          dict_get d "water_quality_index" (PyInt 80);
          dict_get d "temperature_c" (PyInt 22);
          flag d "Button"; flag d "Oyster"; flag d "Shiitake";
          flag d "Lions Mane"; flag d "Reishi"].
  split; [reflexivity|]. unfold feature_row. split; [|split].
  - do 7 (apply perm_skip).
    apply (Permutation_cons_app [_] [_; _]).
    apply (Permutation_cons_app [_; _] []). reflexivity.
  - intros v. rewrite !elem_of_cons, elem_of_nil.
    intros [->|[->|[->|[->|[]]]]] Hs Heq; unfold flag in Heq;
      rewrite Hs in Heq; cbn in Heq; discriminate.
  - intros Hother.
    assert (∀ v, v ∈ ["Lions Mane"; "Oyster"; "Reishi"; "Shiitake"] →
              flag d v = PyInt 0) as Hzero.
    { intros v Hv. specialize (Hother v Hv). unfold flag.
      destruct (dict_get d "species" (PyStr "Oyster")); try done.
      cbn. rewrite bool_decide_eq_false_2; [done|congruence]. }
    rewrite (Hzero "Lions Mane"), (Hzero "Oyster"), (Hzero "Reishi"),
      (Hzero "Shiitake") by (rewrite !elem_of_cons; auto 10).
    reflexivity.
Qed.

End servers_props.

(** ** More examples *)

Section more_examples.
Import MlApi StartAll StartAll.Samples Servers Servers.Samples.

(** X6 at work: a timeout of zero on a machine where the port is open. *)
Lemma wait_for_service_without_time_sample :
  (connect_ex port_taken 3002 (now boot)).1 = Done 0 ∧
  wait_for_service port_taken 3002 0 boot = (Ret false, boot).
Proof.
  split; [reflexivity|].
  apply (wait_for_service_without_time port_taken 3002 0 boot). lia.
Defined.

(** X9 at work: with --no-ollama on a machine where no port is open, every
    directory is there and every spawn succeeds. *)
Lemma main_attempts_every_service_sample :
  let a := {| no_frontend := false; no_ollama := true |} in
  (main plain a boot).1 = Ret tt ∧
  connects (events_of (main plain a) boot)
    = [3002; 3001] ++ (if no_frontend a then [] else [5173])
      ++ [3002; 3001; 11434] ++ (if no_frontend a then [] else [5173]).
Proof.
  apply (main_attempts_every_service plain
           {| no_frontend := false; no_ollama := true |} boot).
  - intros port τ. by exists 111.
  - intros dir τ. by exists true.
Defined.


(** X14 at work: the same Reishi readings sent to both servers. *)
Lemma servers_agree_sample :
  let flask := predict humidity_model message (Ok (PyDict reishi_body)) in
  let fastapi := fastapi_predict humidity_model message reishi_request in
  flask.2 = fastapi.2 ∧
  (fastapi.2 = 200 ↔
   ∃ raw, humidity_model (feature_row (as_flask_request reishi_request))
          = Ok raw) ∧
  (fastapi.2 = 200 →
   flask.1 !! "harvest_cycle" = fastapi.1 !! "harvest_cycle" ∧
   flask.1 !! "category" = fastapi.1 !! "yield_category" ∧
   flask.1 !! "color" = fastapi.1 !! "yield_color" ∧
   flask.1 !! "description" = fastapi.1 !! "description").
Proof.
  apply (servers_agree humidity_model message reishi_request reishi_body).
  reflexivity.
Defined.

End more_examples.
